(** * Verification of [paste.script.pluginlib]

    A shallow embedding of the plugin manifest store, the metadata
    directory locator, the plugin resolver and the command loader of
    [src/paste/script/pluginlib.py], with the properties of the design
    document proved (or refuted) over that embedding.
    The last part covers the rest of the module (global commands, egg
    names, [egg_info_dir]) and the group listing of
    [src/paste/script/entrypoints.py], with further properties read off
    the code.

    Modelling conventions.
    - Python [str] values are [string]s; a character is one of the 256
      values of [ascii], read as the code points U+0000 .. U+00FF.  The
      character classes below ([is_space], [is_linebreak], [lower_char])
      are those of Python 3 restricted to that range.
    - A text file is its decoded content.  The functions open it in
      text mode: a write stores the text it is given (LF stays LF), and
      [readlines] takes LF, CR and CR LF for a line end and gives each
      as LF.
    - Of the operating system the model has the files and directories
      and the errors that follow from them; permissions, quotas, limits
      on the length of a name and an encoding that refuses a character
      are not modelled.
    - Exceptions are values of [exn]; a call returns a [result].
    - The two [while] loops take a fuel argument; the theorems show how
      much fuel is enough. *)

From stdpp Require Import gmap strings list fin_maps sorting.
From Stdlib Require Import Ascii NArith Lia.

(* ===================================================================== *)
(** * Python strings                                                      *)
(* ===================================================================== *)

Module PyStr.

(** [str.isspace] on one character: TAB LF VT FF CR, FS GS RS US,
    SPACE, NEL and NBSP. *)
Definition is_space (c : ascii) : bool :=
  let n := N_of_ascii c in
  ((9 <=? n) && (n <=? 13) || (28 <=? n) && (n <=? 32)
   || (n =? 133) || (n =? 160))%N.

(** The line boundaries of [str.splitlines]: LF VT FF CR, FS GS RS and
    NEL (CR LF counts as one boundary, see [splitlines]). *)
Definition is_linebreak (c : ascii) : bool :=
  let n := N_of_ascii c in
  ((10 <=? n) && (n <=? 13) || (28 <=? n) && (n <=? 30) || (n =? 133))%N.

Definition LF : ascii := "010"%char.
Definition CR : ascii := "013"%char.

Definition is_LF (c : ascii) : bool := bool_decide (c = LF).

(** [str.lower] on one character: A-Z and the Latin-1 capitals
    U+00C0 .. U+00DE except the multiplication sign U+00D7. *)
Definition lower_char (c : ascii) : ascii :=
  let n := N_of_ascii c in
  if ((65 <=? n) && (n <=? 90)
      || (192 <=? n) && (n <=? 222) && negb (n =? 215))%N
  then ascii_of_N (n + 32) else c.

Fixpoint lower (s : string) : string :=
  match s with
  | "" => ""
  | String c s' => String (lower_char c) (lower s')
  end.

Definition nonempty (s : string) : bool :=
  match s with "" => false | String _ _ => true end.

Fixpoint lstrip (s : string) : string :=
  match s with
  | "" => ""
  | String c s' => if is_space c then lstrip s' else s
  end.

Fixpoint rstrip (s : string) : string :=
  match s with
  | "" => ""
  | String c s' =>
      match rstrip s' with
      | "" => if is_space c then "" else String c ""
      | r => String c r
      end
  end.

(** [s.strip()]: leading and trailing whitespace removed. *)
Definition strip (s : string) : string := lstrip (rstrip s).

(** [s.startswith(p)] *)
Fixpoint startswith (p s : string) : bool :=
  match p, s with
  | "", _ => true
  | String a p', String b s' => bool_decide (a = b) && startswith p' s'
  | String _ _, "" => false
  end.

(** [s.endswith(p)] *)
Fixpoint endswith (p s : string) : bool :=
  bool_decide (s = p)
  || match s with "" => false | String _ s' => endswith p s' end.

(** Puts [c] in front of the first piece of a split. *)
Definition cons_first (c : ascii) (pieces : list string) : list string :=
  match pieces with
  | [] => [String c ""]
  | l :: ls => String c l :: ls
  end.

(** [f.readlines()] of a file opened in text mode, from the content of
    the file: a line ends at LF, at CR or at CR LF, and each of these is
    given as LF at the end of the line. *)
Fixpoint readlines (s : string) : list string :=
  match s with
  | "" => []
  | String c s' =>
      if is_LF c then String LF "" :: readlines s'
      else if bool_decide (c = CR) then
        if startswith (String LF "") s' then readlines s'
        else String LF "" :: readlines s'
      else cons_first c (readlines s')
  end.

(** [s.splitlines()]: pieces end at a line boundary, which is dropped;
    CR immediately followed by LF is a single boundary. *)
Fixpoint splitlines (s : string) : list string :=
  match s with
  | "" => []
  | String c s' =>
      if is_linebreak c then
        if bool_decide (c = CR) && startswith (String LF "") s'
        then splitlines s'
        else "" :: splitlines s'
      else cons_first c (splitlines s')
  end.

(** [a in s] for strings: [needle] occurs in [s] as a substring. *)
Definition contains (needle s : string) : Prop :=
  ∃ pre post, s = pre +:+ needle +:+ post.

End PyStr.

Import PyStr.

(* ===================================================================== *)
(** * Paths ([os.path], POSIX flavour)                                    *)
(* ===================================================================== *)

Module PyPath.

Definition sep : ascii := "/"%char.

Definition is_sep (c : ascii) : bool := bool_decide (c = sep).

(** [os.path.join(a, b)] *)
Definition join (a b : string) : string :=
  if startswith (String sep "") b then b
  else if negb (nonempty a) || endswith (String sep "") a then a +:+ b
  else a +:+ String sep b.

(** [p[:p.rfind('/') + 1]] *)
Fixpoint upto_last_sep (p : string) : string :=
  match p with
  | "" => ""
  | String c p' =>
      match upto_last_sep p' with
      | "" => if is_sep c then String c "" else ""
      | r => String c r
      end
  end.

(** [head.rstrip('/')] *)
Fixpoint rstrip_sep (s : string) : string :=
  match s with
  | "" => ""
  | String c s' =>
      match rstrip_sep s' with
      | "" => if is_sep c then "" else String c ""
      | r => String c r
      end
  end.

(** [head == sep * len(head)] *)
Fixpoint all_sep (s : string) : bool :=
  match s with
  | "" => true
  | String c s' => is_sep c && all_sep s'
  end.

(** [os.path.dirname(p)] *)
Definition dirname (p : string) : string :=
  let head := upto_last_sep p in
  if nonempty head && negb (all_sep head) then rstrip_sep head else head.

End PyPath.

Import PyPath.

(* ===================================================================== *)
(** * Exceptions and results                                              *)
(* ===================================================================== *)

(** The exceptions the module raises or lets through.  Each carries its
    [args[0]]. *)
Inductive exn : Type :=
| ValueError (msg : string)
| PackageNotFoundError (arg : string)
| OSError (path : string).

Inductive result (A : Type) : Type :=
| Return (a : A)
| Raise (e : exn).
Arguments Return {A} a.
Arguments Raise {A} e.

Global Instance result_ret : MRet result := λ A a, Return a.
Global Instance result_bind : MBind result := λ A B f m,
  match m with
  | Return a => f a
  | Raise e => Raise e
  end.

(** The outcome of a loop run with fuel. *)
Inductive outcome (A : Type) : Type :=
| Done (a : A)
| Raised (e : exn)
| OutOfFuel.
Arguments Done {A} a.
Arguments Raised {A} e.
Arguments OutOfFuel {A}.

(** [l.pop()] on a non-empty list: the list without its last element,
    and that element. *)
Fixpoint pop {A} (l : list A) : option (list A * A) :=
  match l with
  | [] => None
  | x :: l' =>
      match pop l' with
      | None => Some ([], x)
      | Some (init, y) => Some (x :: init, y)
      end
  end.

(* ===================================================================== *)
(** * Manifest store: [add_plugin], [remove_plugin], [parse_lines]        *)
(* ===================================================================== *)

(** The part of the file system the manifest functions touch: regular
    files with their content, and directories, each under the path the
    code uses for it.  Opening a path that is not a regular file for
    reading raises [OSError].  A write stores its text under the path:
    it goes through in the model also where the code would be refused
    (no permission; a regular file in place of the directory of the
    path), and the statements about [add_plugin] take the directory of
    the manifest to be free of regular files ([dir_free]).  [print] goes
    to standard output, which is not part of the state. *)
Record filesystem : Type := {
  files : gmap string string;
  dirs : gset string
}.

(** [os.path.exists(p)]; the empty path never exists. *)
Definition path_exists (fs : filesystem) (p : string) : bool :=
  nonempty p
  && (bool_decide (is_Some (files fs !! p)) || bool_decide (p ∈ dirs fs)).

Definition open_read (fs : filesystem) (p : string) : result string :=
  match files fs !! p with
  | Some text => Return text
  | None => Raise (OSError p)
  end.

(** [d] and the directories above it, up to the one that is its own
    parent. *)
Fixpoint ancestors (fuel : nat) (d : string) : list string :=
  match fuel with
  | 0 => []
  | S fuel' =>
      if nonempty d && negb (bool_decide (dirname d = d))
      then d :: ancestors fuel' (dirname d) else []
  end.

(** [p] holds a NUL character: no path of the operating system does. *)
Fixpoint has_NUL (p : string) : bool :=
  match p with
  | "" => false
  | String c p' => bool_decide (c = "000"%char) || has_NUL p'
  end.

(** The entry of [chain] (a directory and those above it, nearest
    first) whose parent, the next entry, is a regular file: [os.mkdir]
    refuses to make it. *)
Fixpoint under_file (fs : filesystem) (chain : list string)
  : option string :=
  match chain with
  | [] => None
  | a :: rest =>
      match rest with
      | [] => None
      | b :: _ =>
          if bool_decide (is_Some (files fs !! b)) then Some a
          else under_file fs rest
      end
  end.

(** [os.makedirs(d)]: [d] and its missing ancestors become directories.
    It raises [ValueError] on a path with a NUL character, and an
    [OSError] on the empty path ([FileNotFoundError]), on a path that
    exists ([FileExistsError]) and when a directory it has to make lies
    under a regular file ([NotADirectoryError]). *)
Definition makedirs (fs : filesystem) (d : string) : result filesystem :=
  if has_NUL d then Raise (ValueError "embedded null byte")
  else if negb (nonempty d) then Raise (OSError d)
  else if path_exists fs d then Raise (OSError d)
  else
    match under_file fs (ancestors (String.length d) d) with
    | Some a => Raise (OSError a)
    | None =>
        Return {| files := files fs;
                  dirs := dirs fs
                          ∪ list_to_set (ancestors (String.length d) d) |}
    end.

Definition manifest_name : string := "paster_plugins.txt".

Definition NL : string := String LF "".

(** [[l.strip() for l in f.readlines() if l.strip()]] *)
Definition manifest_lines (text : string) : list string :=
  strip <$> filter (λ l, nonempty (strip l)) (readlines text).

(** [for line in lines: f.write(line); f.write('\n')] *)
Definition write_lines (lines : list string) : string :=
  foldr (λ line rest, line +:+ NL +:+ rest) "" lines.

(** [open(p, 'w')], the writes and [close]: the file holds the text
    written, as text mode leaves LF (and CR) as it is on writing. *)
Definition open_write (fs : filesystem) (p text : string) : filesystem :=
  {| files := <[p := text]> (files fs); dirs := dirs fs |}.

Definition add_plugin (fs : filesystem) (egg_info_dir plugin_name : string)
  : result filesystem :=
  let fn := join egg_info_dir manifest_name in
  lines ← (if path_exists fs fn
           then text ← open_read fs fn; mret (manifest_lines text)
           else mret []);
  if bool_decide (plugin_name ∈ lines) then mret fs
  else
    let lines := lines ++ [plugin_name] in
    fs ← (if path_exists fs (dirname fn) then mret fs
          else makedirs fs (dirname fn));
    mret (open_write fs fn (write_lines lines)).

(** The [for ... else] of [remove_plugin]: the first line equal to the
    name once both are lowered. *)
Fixpoint find_line (plugin_name : string) (lines : list string)
  : option string :=
  match lines with
  | [] => None
  | line :: rest =>
      if bool_decide (lower line = lower plugin_name) then Some line
      else find_line plugin_name rest
  end.

(** [lines.remove(x)] when [x] is in [lines]: the first occurrence goes. *)
Fixpoint list_remove (x : string) (lines : list string) : list string :=
  match lines with
  | [] => []
  | y :: rest => if bool_decide (y = x) then rest else y :: list_remove x rest
  end.

Section ManifestStore.

(** [repr] of a list of strings, as [%s] formats [lines]. *)
Variable repr_lines : list string → string.

Definition not_exist_message (fn : string) : string :=
  "Cannot remove plugin from " +:+ fn +:+ "; file does not exist".

Definition not_in_file_message (plugin_name fn : string)
    (lines : list string) : string :=
  "Plugin " +:+ plugin_name +:+ " not found in file " +:+ fn
  +:+ " (from: " +:+ repr_lines lines +:+ ")".

Definition remove_plugin (fs : filesystem)
    (egg_info_dir plugin_name : string) : result filesystem :=
  let fn := join egg_info_dir manifest_name in
  if negb (path_exists fs fn) then
    Raise (ValueError (not_exist_message fn))
  else
    text ← open_read fs fn;
    let lines := manifest_lines text in
    match find_line plugin_name lines with
    | None => Raise (ValueError (not_in_file_message plugin_name fn lines))
    | Some line =>
        let lines := list_remove line lines in
        mret (open_write fs fn (write_lines lines))
    end.

End ManifestStore.

(** [parse_lines(data)] *)
Definition parse_lines (data : string) : list string :=
  foldl (λ result line,
           let line := strip line in
           if nonempty line && negb (startswith "#" line)
           then result ++ [line] else result)
        [] (splitlines data).

Definition empty_fs : filesystem := {| files := ∅; dirs := ∅ |}.

(* ===================================================================== *)
(** * Metadata directory locator: [find_egg_info_dir]                    *)
(* ===================================================================== *)

Section Locator.

(** The operating system as the locator sees it: [os.listdir], which
    gives the entries of a directory or raises [OSError] ([None]), and
    [os.path.isdir], which never raises. *)
Variable listdir : string → option (list string).
Variable isdir : string → bool.

Definition egg_info_suffix : string := ".egg-info".

(** The [for fn in filenames] loop with its [return]. *)
Fixpoint find_match (dir : string) (filenames : list string)
  : option string :=
  match filenames with
  | [] => None
  | fn :: rest =>
      if endswith egg_info_suffix fn && isdir (join dir fn)
      then Some (join dir fn)
      else find_match dir rest
  end.

(** The [while 1] loop; [Done None] is [return None]. *)
Fixpoint find_loop (fuel : nat) (dir : string) : outcome (option string) :=
  match fuel with
  | 0 => OutOfFuel
  | S fuel' =>
      match listdir dir with
      | None => Done None
      | Some filenames =>
          match find_match dir filenames with
          | Some found => Done (Some found)
          | None =>
              let parent := dirname dir in
              if bool_decide (parent = dir) then Done None
              else find_loop fuel' parent
          end
      end
  end.

Definition find_egg_info_dir (dir : string) : outcome (option string) :=
  find_loop (S (String.length dir)) dir.

(** The directories the walk visits: [dir] itself, and the parent of a
    visited directory that could be listed, had no match and is not its
    own parent. *)
Inductive visits (dir : string) : string → Prop :=
| visits_start : visits dir dir
| visits_parent d filenames :
    visits dir d →
    listdir d = Some filenames →
    find_match d filenames = None →
    dirname d ≠ d →
    visits dir (dirname d).

End Locator.

(* ===================================================================== *)
(** * Distribution registry ([importlib.metadata])                        *)
(* ===================================================================== *)

Record EntryPoint : Type := {
  ep_name : string;
  ep_group : string;
  ep_value : string
}.

(** What [dist.read_text('paster_plugins.txt')] does: it returns the
    text, returns [None], or raises one of the two exceptions the
    resolver catches ([FileNotFoundError], [KeyError]). *)
Inductive read_text_outcome : Type :=
| ReadText (data : string)
| ReadNone
| ReadMissing.

(** A distribution as the module uses it: the [Metadata-Version] header
    ([dist.metadata.get]), the manifest ([dist.read_text]) and the entry
    points ([dist.entry_points]; [None] when reading them raises
    [AttributeError] or [FileNotFoundError]). *)
Record Distribution : Type := {
  dist_name : string;
  metadata_version : option string;
  read_text_plugins : read_text_outcome;
  entry_points : option (list EntryPoint)
}.

Global Instance EntryPoint_eq_dec : EqDecision EntryPoint.
Proof. solve_decision. Defined.

(** Python truthiness of [str | None]. *)
Definition truthy (v : option string) : bool :=
  match v with
  | Some s => nonempty s
  | None => false
  end.

(** The message of the [ValueError] that [Distribution.from_name]
    raises for the empty name. *)
Definition name_required : string := "A distribution name is required.".

(** [distribution(name)]: the distribution registered under [name];
    when there is none, [PackageNotFoundError(name)], and for the empty
    name [ValueError].  The registry is the finite table of the
    installed distributions, keyed by the names it answers to.
    [from_name] refuses the empty name before it looks, so no
    distribution answers to it and a table has no entry for it. *)
Definition distribution (reg : gmap string Distribution) (name : string)
  : result Distribution :=
  match reg !! name with
  | Some dist => Return dist
  | None =>
      if nonempty name then Raise (PackageNotFoundError name)
      else Raise (ValueError name_required)
  end.

Definition get_distro (reg : gmap string Distribution) (spec : string)
  : result Distribution :=
  distribution reg spec.

(* ===================================================================== *)
(** * Plugin resolver: [resolve_plugins]                                  *)
(* ===================================================================== *)

Section Resolver.

(** [str(e)] of the [PackageNotFoundError] whose [args[0]] is given;
    the library decides its wording. *)
Variable str_of_error : string → string.

Definition hint : string := " (did you run python setup.py develop?)".

(** [msg % (a, b, plugin)] for
    [msg = '%sNot Found%s: %s (did you run python setup.py develop?)'] *)
Definition msg (a b plugin : string) : string :=
  a +:+ "Not Found" +:+ b +:+ ": " +:+ plugin +:+ hint.

(** The [except PackageNotFoundError as e] handler: the new [e.args[0]]. *)
Definition not_found_message (arg plugin : string) : string :=
  if bool_decide (str_of_error arg ≠ plugin)
  then msg (str_of_error arg +:+ ": ") " for" plugin
  else msg "" "" plugin.

(** [for add_plugin in parse_lines(data): if add_plugin not in found:
    plugin_list.append(add_plugin)] *)
Definition enqueue (found plugin_list entries : list string)
  : list string :=
  foldl (λ plugin_list add_plugin,
           if bool_decide (add_plugin ∉ found)
           then plugin_list ++ [add_plugin] else plugin_list)
        plugin_list entries.

(** The body of [if dist.metadata.get('Metadata-Version'):]: the queue
    after the manifest of [dist] has been consulted. *)
Definition consult (dist : Distribution) (found plugin_list : list string)
  : list string :=
  if truthy (metadata_version dist) then
    match read_text_plugins dist with
    | ReadText data =>
        if nonempty data then enqueue found plugin_list (parse_lines data)
        else plugin_list
    | ReadNone => plugin_list
    | ReadMissing => plugin_list
    end
  else plugin_list.

(** The [while plugin_list] loop; the result is [found]. *)
Fixpoint resolve_loop (fuel : nat) (reg : gmap string Distribution)
    (plugin_list found : list string) : outcome (list string) :=
  match fuel with
  | 0 => OutOfFuel
  | S fuel' =>
      match pop plugin_list with
      | None => Done found
      | Some (plugin_list, plugin) =>
          match distribution reg plugin with
          | Raise (PackageNotFoundError arg) =>
              Raised (PackageNotFoundError (not_found_message arg plugin))
          | Raise e => Raised e
          | Return dist =>
              let found := found ++ [plugin] in
              resolve_loop fuel' reg (consult dist found plugin_list) found
          end
      end
  end.

Definition resolve_plugins (fuel : nat) (reg : gmap string Distribution)
    (plugin_list : list string) : outcome (list Distribution) :=
  match resolve_loop fuel reg plugin_list [] with
  | Done found =>
      match mapM (get_distro reg) found with
      | Return dists => Done dists
      | Raise e => Raised e
      end
  | Raised e => Raised e
  | OutOfFuel => OutOfFuel
  end.

End Resolver.

(* ===================================================================== *)
(** * Command loader: [load_commands_from_plugins]                        *)
(* ===================================================================== *)

Definition command_group : string := "paste.paster_command".

(** [for ep in dist_entry_points: if ep.group == ...: commands[ep.name] = ep] *)
Definition add_commands (commands : gmap string EntryPoint)
    (eps : list EntryPoint) : gmap string EntryPoint :=
  foldl (λ commands ep,
           if bool_decide (ep_group ep = command_group)
           then <[ep_name ep := ep]> commands else commands)
        commands eps.

Definition load_commands_from_plugins (plugins : list Distribution)
  : gmap string EntryPoint :=
  foldl (λ commands dist,
           match entry_points dist with
           | Some eps => add_commands commands eps
           | None => commands
           end)
        ∅ plugins.

(* ===================================================================== *)
(** * Global commands: [load_global_commands]                             *)
(* ===================================================================== *)

Definition global_command_group : string := "paste.global_paster_command".

(** [eps.select(group=group)] on the installed entry points [eps]. *)
Definition select_group (group : string) (eps : list EntryPoint)
  : list EntryPoint :=
  filter (λ ep, ep_group ep = group) eps.

(** [load_global_commands()]; [eps] is what [entry_points()] returns. *)
Definition load_global_commands (eps : list EntryPoint)
  : gmap string EntryPoint :=
  foldl (λ commands p, <[ep_name p := p]> commands)
        ∅ (select_group global_command_group eps).

(* ===================================================================== *)
(** * Egg names and the metadata directory by name: [egg_info_dir]        *)
(* ===================================================================== *)

(** A character of the class [[a-zA-Z0-9.]]. *)
Definition is_safe_char (c : ascii) : bool :=
  let n := N_of_ascii c in
  ((97 <=? n) && (n <=? 122) || (65 <=? n) && (n <=? 90)
   || (48 <=? n) && (n <=? 57) || (n =? 46))%N.

Fixpoint str_map (f : ascii → ascii) (s : string) : string :=
  match s with
  | "" => ""
  | String c s' => String (f c) (str_map f s')
  end.

(** [re.sub('[^a-zA-Z0-9.]', '_', s)] *)
Definition sub_unsafe (s : string) : string :=
  str_map (λ c, if is_safe_char c then c else "_"%char) s.

(** [s.replace(old, new)] for one-character [old] and [new]. *)
Definition replace_char (old new : ascii) (s : string) : string :=
  str_map (λ c, if bool_decide (c = old) then new else c) s.

Definition _safe_name (dist_name : string) : string :=
  lower (sub_unsafe dist_name).

Definition _to_filename (name : string) : string :=
  replace_char " " "_" (replace_char "-" "_" name).

Definition egg_name (dist_name : string) : string :=
  _to_filename (_safe_name dist_name).

(** [sep.join(items)] *)
Fixpoint join_with (sep : string) (items : list string) : string :=
  match items with
  | [] => ""
  | [x] => x
  | x :: rest => x +:+ sep +:+ join_with sep rest
  end.

Section EggInfoDir.

(** [os.listdir], as for the locator, and [os.path.exists], which never
    raises. *)
Variable listdir : string → option (list string).
Variable exists_ : string → bool.

Definition no_egg_info_message (all : list string) : string :=
  "No egg-info directory found (looked in " +:+ join_with ", " all +:+ ")".

(** The [for dir_extension in ...] loop with its [return], and the
    [raise] after it; [IOError] is [OSError], here with the message as
    its argument.  [os.path.join] of three parts joins them from the
    left. *)
Fixpoint egg_info_dir_loop (base_dir dist_name : string)
    (all : list string) (dir_extensions : list string) : result string :=
  match dir_extensions with
  | [] => Raise (OSError (no_egg_info_message all))
  | dir_extension :: rest =>
      let full := join (join base_dir dir_extension)
                       (egg_name dist_name +:+ ".egg-info") in
      let all := all ++ [full] in
      if exists_ full then Return full
      else egg_info_dir_loop base_dir dist_name all rest
  end.

(** [egg_info_dir(base_dir, dist_name)]; the listing is taken before the
    loop starts, and its failure is the failure of the call. *)
Definition egg_info_dir (base_dir dist_name : string) : result string :=
  match listdir base_dir with
  | None => Raise (OSError base_dir)
  | Some filenames =>
      egg_info_dir_loop base_dir dist_name [] ("." :: filenames)
  end.

End EggInfoDir.

(* ===================================================================== *)
(** * Entry point listing ([entrypoints.py])                              *)
(* ===================================================================== *)

(** [' ' * k]: no blank at all when [k] is zero or negative. *)
Definition spaces (k : Z) : string :=
  Nat.iter (Z.to_nat k) (String " ") "".

(** [_ep_description(ep, pad_name)]; an entry point of
    [importlib.metadata] always has a [value], so [dest] is [ep.value]. *)
Definition _ep_description (ep : EntryPoint) (pad_name : option Z) : string :=
  let name := ep_name ep in
  let name :=
    match pad_name with
    | Some pad_name =>
        name +:+ spaces (pad_name - Z.of_nat (String.length name))
    | None => name
    end in
  name +:+ " = " +:+ ep_value ep.

Definition description_prefix : string := "paste.description.".

(** [eps_dict[group] = None]: a dict keeps its keys in the order they
    were first set. *)
Definition dict_set_none (eps_dict : list string) (group : string)
  : list string :=
  if bool_decide (group ∈ eps_dict) then eps_dict else eps_dict ++ [group].

(** [sorted(keys)] on strings: by code point. *)
Definition sorted (keys : list string) : list string :=
  merge_sort String.le keys.

(** [get_groups_by_pattern(pattern)].  [eps] is what [entry_points()]
    returns, each time it is called; [groups] is [entry_points().groups],
    a set, in the order its iteration gives.  [pattern] is [None] or a
    compiled pattern, which is always true as a condition; [search] is
    whether [pattern.search] finds a match. *)
Definition get_groups_by_pattern (pattern : option (string → bool))
    (eps : list EntryPoint) (groups : list string) : list string :=
  let eps_dict :=
    foldl (λ eps_dict group,
      foldl (λ eps_dict (ep : EntryPoint),
               match pattern with
               | Some search =>
                   if negb (search group) then eps_dict
                   else dict_set_none eps_dict group
               | None =>
                   if startswith description_prefix group then eps_dict
                   else dict_set_none eps_dict group
               end)
            eps_dict (select_group group eps))
      [] groups in
  sorted eps_dict.

(* ===================================================================== *)
(** * Vocabulary of the statements                                        *)
(* ===================================================================== *)

Global Arguments is_space : simpl never.
Global Arguments is_linebreak : simpl never.
Global Arguments is_LF : simpl never.
Global Arguments lower_char : simpl never.
Global Arguments is_sep : simpl never.

(** A character that ends a line for a file read in text mode. *)
Definition is_newline (c : ascii) : bool :=
  is_LF c || bool_decide (c = CR).

Global Arguments is_newline : simpl never.

(** ** Lines *)

(** [s] cut at every character that [brk] holds of; never empty. *)
Fixpoint split_on (brk : ascii → bool) (s : string) : list string :=
  match s with
  | "" => [""]
  | String c s' =>
      if brk c then "" :: split_on brk s' else cons_first c (split_on brk s')
  end.

(** Pieces stripped, the empty ones dropped. *)
Definition stripped (pieces : list string) : list string :=
  filter (λ l, nonempty l) (strip <$> pieces).

Fixpoint str_forall (P : ascii → bool) (s : string) : bool :=
  match s with
  | "" => true
  | String c s' => P c && str_forall P s'
  end.

(** A line as the manifest functions keep it: not empty, no whitespace
    around it, no line feed in it. *)
Definition clean_line (l : string) : bool :=
  nonempty l && bool_decide (strip l = l)
  && str_forall (λ c, negb (is_LF c)) l.

(** A line that [splitlines] leaves in one piece. *)
Definition plain_line (l : string) : bool :=
  str_forall (λ c, negb (is_linebreak c)) l.

Definition is_comment (l : string) : bool := startswith "#" l.

(** Two splits of a text that agree up to whitespace around the pieces
    and empty pieces. *)
Definition same_lines (X Y : list string) : Prop :=
  (∀ p, strip (p +:+ hd "" X) = strip (p +:+ hd "" Y))
  ∧ stripped (tl X) = stripped (tl Y).

(** ** Manifests *)

(** [sep in s] *)
Fixpoint has_sep (s : string) : bool :=
  match s with
  | "" => false
  | String c s' => is_sep c || has_sep s'
  end.

(** The lines of the manifest [fn] as [add_plugin] sees them. *)
Definition stored_lines (fs : filesystem) (fn : string) : list string :=
  match files fs !! fn with
  | Some text => manifest_lines text
  | None => []
  end.

(** [s] holds no CR, which a file read in text mode gives back as a
    line end. *)
Definition no_CR (s : string) : bool :=
  str_forall (λ c, negb (bool_decide (c = CR))) s.

(** Neither [d] nor a directory above it is a regular file: [d] is a
    directory or can be made one. *)
Definition dir_free (fs : filesystem) (d : string) : Prop :=
  Forall (λ a, files fs !! a = None) (ancestors (String.length d) d).

Global Instance dir_free_dec fs d : Decision (dir_free fs d).
Proof. unfold dir_free. apply _. Defined.


(** [line] is the name up to case, as [remove_plugin] compares. *)
Definition matches (plugin_name line : string) : Prop :=
  lower line = lower plugin_name.

(** [repr] of a list of strings that need no escaping. *)
Definition repr_plain (lines : list string) : string :=
  "[" +:+ foldr (λ l rest, "'" +:+ l +:+ "'"
                   +:+ (if nonempty rest then ", " else "") +:+ rest)
            "" lines +:+ "]".

(** ** Registries *)

(** The names the resolver reads from the manifest of [dist]: none
    unless [Metadata-Version] is set and [read_text] gives a non-empty
    text. *)
Definition manifest_entries (dist : Distribution) : list string :=
  if truthy (metadata_version dist) then
    match read_text_plugins dist with
    | ReadText data => if nonempty data then parse_lines data else []
    | ReadNone => []
    | ReadMissing => []
    end
  else [].

(** [dist] with another outcome of [read_text('paster_plugins.txt')]. *)
Definition with_manifest (dist : Distribution) (o : read_text_outcome)
  : Distribution :=
  {| dist_name := dist_name dist;
     metadata_version := metadata_version dist;
     read_text_plugins := o;
     entry_points := entry_points dist |}.

(** Two outcomes of [resolve_plugins] of the same kind: the same
    error, or lists of distributions related one by one. *)
Definition same_outcome (R : Distribution → Distribution → Prop)
    (x y : outcome (list Distribution)) : Prop :=
  match x, y with
  | Done dists, Done dists' => Forall2 R dists dists'
  | Raised e, Raised e' => e = e'
  | OutOfFuel, OutOfFuel => True
  | _, _ => False
  end.

(** Registered names not yet found, and queued names already found:
    an iteration lowers the first, or keeps it and lowers the second. *)
Definition unfound (reg : gmap string Distribution) (found : list string)
  : nat :=
  size (dom reg ∖ list_to_set found : gset string).

Definition stale (plugin_list found : list string) : nat :=
  length (filter (.∈ found) plugin_list).

(** ** Commands *)

(** The entry points of the distributions whose metadata can be read, in
    the order the loader meets them. *)
Definition readable_entry_points (plugins : list Distribution)
  : list EntryPoint :=
  plugins ≫= λ dist, default [] (entry_points dist).

(** [ep] is a command entry point named [name]. *)
Definition is_command (name : string) (ep : EntryPoint) : Prop :=
  ep_group ep = command_group ∧ ep_name ep = name.

Global Instance is_command_dec name ep : Decision (is_command name ep).
Proof. unfold is_command. apply _. Defined.

(** ** Egg names, groups, reachable names *)

Global Arguments is_safe_char : simpl never.

(** A character of ASCII. *)
Definition is_ascii (c : ascii) : bool := (N_of_ascii c <? 128)%N.

(** A character of an egg name: [a-z], [0-9], [.] or [_]. *)
Definition is_egg_char (c : ascii) : bool :=
  let n := N_of_ascii c in
  ((97 <=? n) && (n <=? 122) || (48 <=? n) && (n <=? 57)
   || (n =? 46) || (n =? 95))%N.

(** The path [egg_info_dir] tries for one entry of the listing. *)
Definition candidate (base_dir dist_name dir_extension : string) : string :=
  join (join base_dir dir_extension) (egg_name dist_name +:+ ".egg-info").

(** A group passes the filter of [get_groups_by_pattern]. *)
Definition group_kept (pattern : option (string → bool)) (group : string)
  : bool :=
  match pattern with
  | Some search => search group
  | None => negb (startswith description_prefix group)
  end.

(** The keys of [eps_dict] after the two loops of
    [get_groups_by_pattern], with the inner loop summed up: a group is
    set when it passes the filter and has an entry point. *)
Definition groups_dict (pattern : option (string → bool))
    (eps : list EntryPoint) (eps_dict groups : list string) : list string :=
  foldl (λ eps_dict group,
           if group_kept pattern group
              && bool_decide (select_group group eps ≠ [])
           then dict_set_none eps_dict group else eps_dict)
        eps_dict groups.

(** The names [resolve_plugins] can reach from its list: the names of
    the list, and the manifest entries of a reached, registered name. *)
Inductive reachable (reg : gmap string Distribution)
    (plugin_list : list string) : string → Prop :=
| reachable_start x : x ∈ plugin_list → reachable reg plugin_list x
| reachable_step n dist x :
    reachable reg plugin_list n →
    reg !! n = Some dist →
    x ∈ manifest_entries dist →
    reachable reg plugin_list x.

(** Found and queued names are reached from [start]. *)
Definition reach_sound (reg : gmap string Distribution)
    (start plugin_list found : list string) : Prop :=
  ∀ x, x ∈ found ∨ x ∈ plugin_list → reachable reg start x.

(** The names of [start], and the entries of the manifests of the names
    found, are found or queued. *)
Definition reach_closed (reg : gmap string Distribution)
    (start plugin_list found : list string) : Prop :=
  (∀ x, x ∈ start → x ∈ found ∨ x ∈ plugin_list)
  ∧ ∀ n dist x, n ∈ found → reg !! n = Some dist →
                x ∈ manifest_entries dist → x ∈ found ∨ x ∈ plugin_list.

(* ===================================================================== *)
(** * Sample data                                                         *)
(* ===================================================================== *)

Definition demo_dir : string := "proj/Foo.egg-info".
Definition demo_manifest : string := "proj/Foo.egg-info/paster_plugins.txt".

(** A manifest that holds a comment, a blank line and a name. *)
Definition commented_text : string :=
  write_lines ["# my plugins"; ""; "Foo"].

Definition commented_fs : filesystem :=
  {| files := {[ demo_manifest := commented_text ]};
     dirs := {[ "proj"; demo_dir ]} |}.


(** A manifest with a line that holds a vertical tab, which [splitlines]
    takes for a line boundary and [readlines] does not. *)
Definition tabbed_line : string := String "q" (String "011" "x").

Definition tabbed_fs : filesystem :=
  {| files := {[ demo_manifest := write_lines ["X"; tabbed_line] ]};
     dirs := {[ "proj"; demo_dir ]} |}.

(** [str(e)] as [importlib.metadata] words it. *)
Definition importlib_str (name : string) : string :=
  "No package metadata was found for " +:+ name.

Definition plugin_dist (name manifest : string) : Distribution :=
  {| dist_name := name;
     metadata_version := Some "2.1";
     read_text_plugins := ReadText manifest;
     entry_points := Some [] |}.

(** A and B list each other. *)
Definition dist_A : Distribution := plugin_dist "A" (write_lines ["B"]).
Definition dist_B : Distribution := plugin_dist "B" (write_lines ["A"]).

Definition cycle_reg : gmap string Distribution :=
  {[ "A" := dist_A; "B" := dist_B ]}.

(** The same, and C that lists nothing and that nothing lists. *)
Definition dist_C : Distribution := plugin_dist "C" "".

Definition cycle_and_one_reg : gmap string Distribution :=
  {[ "A" := dist_A; "B" := dist_B; "C" := dist_C ]}.

(** A lists D and B, B lists D. *)
Definition diamond_reg : gmap string Distribution :=
  {[ "A" := plugin_dist "A" (write_lines ["D"; "B"]);
     "B" := plugin_dist "B" (write_lines ["D"]);
     "D" := plugin_dist "D" "" ]}.

(** A lists B twice. *)
Definition twice_reg : gmap string Distribution :=
  {[ "A" := plugin_dist "A" (write_lines ["B"; "B"]);
     "B" := plugin_dist "B" "" ]}.

(** A distribution without [Metadata-Version] whose manifest names a
    plugin that is not installed. *)
Definition old_dist : Distribution :=
  {| dist_name := "Old";
     metadata_version := None;
     read_text_plugins := ReadText (write_lines ["Ghost"]);
     entry_points := Some [] |}.

Definition old_reg : gmap string Distribution := {[ "Old" := old_dist ]}.

(** A and B list each other, and A has no [Metadata-Version]. *)
Definition bare_A : Distribution :=
  {| dist_name := "A";
     metadata_version := None;
     read_text_plugins := ReadText (write_lines ["B"]);
     entry_points := Some [] |}.

Definition bare_cycle_reg : gmap string Distribution :=
  {[ "A" := bare_A; "B" := dist_B ]}.

(** A lists B and B lists A as [a], a spelling the registry answers to
    with the distribution of A. *)
Definition alias_cycle_reg : gmap string Distribution :=
  {[ "A" := dist_A; "a" := dist_A;
     "B" := plugin_dist "B" (write_lines ["a"]) ]}.




(** A file tree: [/srv/app] cannot be listed; under [/opt] nothing ends
    in [.egg-info]; [notes.egg-info] is a file. *)
Definition demo_listdir (d : string) : option (list string) :=
  if bool_decide (d = "/srv/app/src") then Some ["main.py"; "notes.egg-info"]
  else if bool_decide (d = "/opt/tool") then Some ["README"]
  else if bool_decide (d = "/opt") then Some ["tool"]
  else if bool_decide (d = "/") then Some ["opt"; "srv"]
  else None.

Definition demo_isdir (p : string) : bool :=
  bool_decide (p ∈ ["/"; "/opt"; "/opt/tool"; "/srv"; "/srv/app";
                    "/srv/app/src"]).

Definition serve_a : EntryPoint :=
  {| ep_name := "serve"; ep_group := command_group; ep_value := "a:Serve" |}.
Definition serve_c : EntryPoint :=
  {| ep_name := "serve"; ep_group := command_group; ep_value := "c:Serve" |}.
Definition other_a : EntryPoint :=
  {| ep_name := "main"; ep_group := "console_scripts"; ep_value := "a:main" |}.

Definition commands_dist (name : string) (eps : option (list EntryPoint))
  : Distribution :=
  {| dist_name := name;
     metadata_version := Some "2.1";
     read_text_plugins := ReadNone;
     entry_points := eps |}.

Definition demo_plugins : list Distribution :=
  [ commands_dist "a" (Some [serve_a; other_a]);
    commands_dist "b" None;
    commands_dist "c" (Some [serve_c]) ].

(** Installed entry points: two commands, a console script, a global
    command and a description. *)
Definition global_serve : EntryPoint :=
  {| ep_name := "serve"; ep_group := global_command_group;
     ep_value := "g:Serve" |}.
Definition describe_a : EntryPoint :=
  {| ep_name := "main"; ep_group := "paste.description.console_scripts";
     ep_value := "a:describe" |}.

Definition demo_eps : list EntryPoint :=
  [serve_a; other_a; global_serve; describe_a; serve_c].

(** A checkout: [base] holds [src] and [lib], and the metadata
    directory of [Foo-Bar] lies in [lib]. *)
Definition egg_listdir (d : string) : option (list string) :=
  if bool_decide (d = "base") then Some ["src"; "lib"] else None.

Definition egg_exists (p : string) : bool :=
  bool_decide (p ∈ ["base"; "base/src"; "base/lib";
                    "base/lib/foo_bar.egg-info"]).

(** Closes [Is_true b] and its negation from an equation on [b]. *)
Ltac by_bool :=
  cbv beta;
  first [ apply Is_true_true_2; first [done | by apply negb_true_iff]
        | apply Is_true_false_2; first [done | by apply negb_false_iff] ].

(* ===================================================================== *)
(** * The definitions on concrete inputs                                  *)
(* ===================================================================== *)

Example is_space_ex :
  filter (λ n, is_space (ascii_of_nat n)) (seq 0 256)
  = [9; 10; 11; 12; 13; 28; 29; 30; 31; 32; 133; 160].
Proof. by vm_compute. Qed.

Example is_linebreak_ex :
  filter (λ n, is_linebreak (ascii_of_nat n)) (seq 0 256)
  = [10; 11; 12; 13; 28; 29; 30; 133].
Proof. by vm_compute. Qed.

Example lower_char_ex :
  filter (λ n, lower_char (ascii_of_nat n) ≠ ascii_of_nat n) (seq 0 256)
  = seq 65 26 ++ seq 192 23 ++ seq 216 7
  ∧ Forall (λ n, lower_char (ascii_of_nat n) = ascii_of_nat (n + 32))
      (seq 65 26 ++ seq 192 23 ++ seq 216 7).
Proof. split; [by vm_compute|]. compute_done. Qed.

Example strip_ex : strip (" " +:+ NL +:+ " a b " +:+ NL) = "a b".
Proof. reflexivity. Qed.

Example readlines_ex :
  readlines ("a" +:+ NL +:+ "b" +:+ NL +:+ NL +:+ "c")
  = ["a" +:+ NL; "b" +:+ NL; NL; "c"].
Proof. reflexivity. Qed.

Example readlines_text_mode_ex :
  readlines (String "a" (String CR (String "b" NL))) = ["a" +:+ NL; "b" +:+ NL]
  ∧ readlines (String "a" (String CR (String LF "b"))) = ["a" +:+ NL; "b"]
  ∧ readlines (String "a" (String CR "")) = ["a" +:+ NL]
  ∧ readlines (String "a" (String CR (String CR (String LF "b"))))
    = ["a" +:+ NL; NL; "b"]
  ∧ readlines (String "a" (String "011" (String "b" NL)))
    = [String "a" (String "011" (String "b" NL))].
Proof. repeat split. Qed.

Example splitlines_ex :
  splitlines (String "a" (String CR (String LF (String LF "b"))))
  = ["a"; ""; "b"]
  ∧ splitlines ("a" +:+ NL) = ["a"] ∧ splitlines NL = [""]
  ∧ splitlines "" = [] ∧ splitlines (String "a" (String CR "")) = ["a"]
  ∧ splitlines (String CR (String LF "")) = [""].
Proof. repeat split; reflexivity. Qed.

Example lower_ex : lower "PasteScript_X" = "pastescript_x".
Proof. reflexivity. Qed.

Example dirname_ex1 : dirname "/usr/lib/proj" = "/usr/lib".
Proof. reflexivity. Qed.

Example dirname_ex2 : dirname "/usr" = "/" ∧ dirname "/" = "/".
Proof. split; reflexivity. Qed.

Example dirname_ex3 : dirname "proj/src" = "proj" ∧ dirname "proj" = "".
Proof. split; reflexivity. Qed.

Example dirname_ex4 :
  dirname "" = "" ∧ dirname "//" = "//" ∧ dirname "a/" = "a"
  ∧ dirname "/a//b" = "/a" ∧ dirname "//a" = "//" ∧ dirname "a//" = "a".
Proof. repeat split; reflexivity. Qed.

Example join_ex :
  join "proj/Foo.egg-info" "paster_plugins.txt"
  = "proj/Foo.egg-info/paster_plugins.txt"
  ∧ join "" "x" = "x" ∧ join "/" "x" = "/x" ∧ join "a/" "x" = "a/x"
  ∧ join "a" "/x" = "/x".
Proof. repeat split; reflexivity. Qed.

Example parse_lines_ex :
  parse_lines (write_lines ["# plugins"; "PasteScript"; ""; "  Foo  "; "#Bar"])
  = ["PasteScript"; "Foo"].
Proof. reflexivity. Qed.

Example manifest_lines_ex :
  manifest_lines (write_lines ["# plugins"; "PasteScript"; ""; "  Foo  "])
  = ["# plugins"; "PasteScript"; "Foo"].
Proof. reflexivity. Qed.

Example add_ex :
  (fs ← add_plugin empty_fs demo_dir "Foo";
   fs ← add_plugin fs demo_dir "Bar";
   mret (files fs !! demo_manifest, path_exists fs "proj"))
  = Return (Some (write_lines ["Foo"; "Bar"]), true).
Proof. by vm_compute. Qed.

Example add_no_dir_ex : add_plugin empty_fs "" "Foo" = Raise (OSError "").
Proof. reflexivity. Qed.

Example remove_ex :
  (fs ← remove_plugin repr_plain commented_fs demo_dir "FOO";
   mret (files fs !! demo_manifest))
  = Return (Some (write_lines ["# my plugins"])).
Proof. by vm_compute. Qed.

Example find_ex :
  find_egg_info_dir
    (λ d, if bool_decide (d = "/w/proj") then Some ["src"; "Foo.egg-info"]
          else Some [])
    (λ p, bool_decide (p = "/w/proj/Foo.egg-info"))
    "/w/proj/src/pkg"
  = Done (Some "/w/proj/Foo.egg-info").
Proof. reflexivity. Qed.

Example resolve_ex :
  resolve_loop importlib_str 6 diamond_reg ["B"; "A"] []
  = Done ["A"; "B"; "D"; "D"; "B"].
Proof. by vm_compute. Qed.

Example load_ex :
  map_to_list (load_commands_from_plugins demo_plugins) = [("serve", serve_c)].
Proof. by vm_compute. Qed.

(* ===================================================================== *)
(** * Strings: append                                                     *)
(* ===================================================================== *)

Lemma sapp_nil_l s : "" +:+ s = s.
Proof. done. Qed.

Lemma sapp_cons c s t : String c s +:+ t = String c (s +:+ t).
Proof. done. Qed.

Lemma sapp_nil_r s : s +:+ "" = s.
Proof. induction s as [|c s IH]; [done|]. by rewrite sapp_cons, IH. Qed.

Lemma sapp_assoc s t u : (s +:+ t) +:+ u = s +:+ t +:+ u.
Proof. induction s as [|c s IH]; [done|]. by rewrite !sapp_cons, IH. Qed.

(* ===================================================================== *)
(** * Locator: the walk ends                                              *)
(* ===================================================================== *)

Lemma upto_last_sep_length p :
  String.length (upto_last_sep p) ≤ String.length p
  ∧ (String.length (upto_last_sep p) = String.length p → upto_last_sep p = p).
Proof.
  induction p as [|c p [IHle IHeq]]; simpl; [done|].
  destruct (upto_last_sep p) as [|c' r] eqn:E.
  - destruct (is_sep c); simpl; split; try lia.
    intros Hlen. destruct p; [done | simpl in Hlen; lia].
  - simpl in *. split; [lia|]. intros Hlen. f_equal. apply IHeq. lia.
Qed.

Lemma rstrip_sep_length s :
  String.length (rstrip_sep s) ≤ String.length s
  ∧ (String.length (rstrip_sep s) = String.length s → rstrip_sep s = s).
Proof.
  induction s as [|c s [IHle IHeq]]; simpl; [done|].
  destruct (rstrip_sep s) as [|c' r] eqn:E.
  - destruct (is_sep c); simpl; split; try lia.
    intros Hlen. destruct s; [done | simpl in Hlen; lia].
  - simpl in *. split; [lia|]. intros Hlen. f_equal. apply IHeq. lia.
Qed.

Lemma dirname_shorter p :
  dirname p ≠ p → String.length (dirname p) < String.length p.
Proof.
  unfold dirname. intros Hne.
  destruct (upto_last_sep_length p) as [Hle Heq].
  destruct (nonempty (upto_last_sep p) && negb (all_sep (upto_last_sep p))).
  - destruct (rstrip_sep_length (upto_last_sep p)) as [Hle' Heq'].
    destruct (decide (String.length (rstrip_sep (upto_last_sep p))
                      = String.length p)) as [Hlen|]; [|lia].
    exfalso. apply Hne. rewrite Heq' by lia. apply Heq. lia.
  - destruct (decide (String.length (upto_last_sep p) = String.length p));
      [|lia].
    exfalso. auto.
Qed.

Section LocatorFacts.

Variable listdir : string → option (list string).
Variable isdir : string → bool.

Lemma find_match_None dir filenames :
  find_match isdir dir filenames = None ↔
  ∀ fn, fn ∈ filenames →
        ¬ (endswith egg_info_suffix fn = true ∧ isdir (join dir fn) = true).
Proof.
  induction filenames as [|fn rest IH]; simpl.
  - split; [|done]. intros _ fn Hin. inversion Hin.
  - destruct (endswith egg_info_suffix fn && isdir (join dir fn)) eqn:E.
    + split; [done|]. intros H. exfalso. apply (H fn); [left|].
      by apply andb_true_iff.
    + rewrite IH. split.
      * intros H fn' Hin. inversion Hin; subst; [|by apply H].
        intros [??]. apply andb_false_iff in E. destruct E; congruence.
      * intros H fn' Hin. apply H. by right.
Qed.

Lemma find_loop_fuel f1 f2 dir :
  String.length dir < f1 → String.length dir < f2 →
  find_loop listdir isdir f1 dir = find_loop listdir isdir f2 dir.
Proof.
  revert f2 dir. induction f1 as [|f1 IH]; intros [|f2] dir H1 H2;
    [lia..|]. simpl.
  destruct (listdir dir) as [filenames|]; [|done].
  destruct (find_match isdir dir filenames); [done|].
  case_bool_decide as Hp; [done|].
  apply dirname_shorter in Hp. apply IH; lia.
Qed.

Lemma find_loop_total fuel dir :
  String.length dir < fuel →
  ∃ r, find_loop listdir isdir fuel dir = Done r.
Proof.
  revert dir. induction fuel as [|fuel IH]; intros dir H; [lia|]. simpl.
  destruct (listdir dir) as [filenames|]; [|by eexists].
  destruct (find_match isdir dir filenames); [by eexists|].
  case_bool_decide as Hp; [by eexists|].
  apply dirname_shorter in Hp. apply IH; lia.
Qed.

Lemma visits_same dir d :
  visits listdir isdir dir d →
  find_egg_info_dir listdir isdir dir = find_egg_info_dir listdir isdir d.
Proof.
  unfold find_egg_info_dir.
  induction 1 as [|d filenames _ IH Hls Hm Hp]; [done|].
  rewrite IH. simpl. rewrite Hls, Hm.
  rewrite bool_decide_eq_false_2 by done.
  apply dirname_shorter in Hp.
  transitivity (find_loop listdir isdir (S (String.length (dirname d)))
                  (dirname d)); [|done].
  apply find_loop_fuel; lia.
Qed.

End LocatorFacts.
(** C7.  [find_egg_info_dir] returns on every start directory and never
    raises.  When a directory the walk reaches cannot be listed, the
    result is [None]; when the walk reaches a directory that is its own
    parent and has no match, the result is [None]. *)
Theorem find_egg_info_dir_tolerant
    (listdir : string → option (list string)) (isdir : string → bool)
    (dir : string) :
  (∃ r, find_egg_info_dir listdir isdir dir = Done r)
  ∧ (∀ d, visits listdir isdir dir d → listdir d = None →
          find_egg_info_dir listdir isdir dir = Done None)
  ∧ (∀ d filenames,
        visits listdir isdir dir d →
        listdir d = Some filenames →
        find_match isdir d filenames = None →
        dirname d = d →
        find_egg_info_dir listdir isdir dir = Done None).
Proof.
  split; [|split].
  - apply find_loop_total. lia.
  - intros d Hv Hls. rewrite (visits_same _ _ _ _ Hv).
    unfold find_egg_info_dir. simpl. by rewrite Hls.
  - intros d filenames Hv Hls Hnone Hroot.
    rewrite (visits_same _ _ _ _ Hv).
    unfold find_egg_info_dir. simpl. rewrite Hls, Hnone.
    by rewrite bool_decide_eq_true_2.
Qed.

Lemma find_egg_info_dir_tolerant_witness :
  find_egg_info_dir demo_listdir demo_isdir "/srv/app/src" = Done None
  ∧ find_egg_info_dir demo_listdir demo_isdir "/opt/tool" = Done None.
Proof.
  split.
  - apply (proj1 (proj2 (find_egg_info_dir_tolerant demo_listdir demo_isdir
                           "/srv/app/src")) "/srv/app"); [|reflexivity].
    apply (visits_parent _ _ _ "/srv/app/src" ["main.py"; "notes.egg-info"]);
      [apply visits_start|reflexivity|reflexivity|compute_done].
  - apply (proj2 (proj2 (find_egg_info_dir_tolerant demo_listdir demo_isdir
                           "/opt/tool")) "/" ["opt"; "srv"]);
      [|reflexivity..].
    apply (visits_parent _ _ _ "/opt" ["tool"]);
      [|reflexivity|reflexivity|compute_done].
    apply (visits_parent _ _ _ "/opt/tool" ["README"]);
      [apply visits_start|reflexivity|reflexivity|compute_done].
Defined.

(* ===================================================================== *)
(** * Command loader                                                      *)
(* ===================================================================== *)

Lemma add_commands_snoc commands eps ep :
  add_commands commands (eps ++ [ep])
  = if bool_decide (ep_group ep = command_group)
    then <[ep_name ep := ep]> (add_commands commands eps)
    else add_commands commands eps.
Proof. unfold add_commands. by rewrite foldl_app. Qed.

Lemma add_commands_lookup commands eps name :
  add_commands commands eps !! name
  = match last (filter (is_command name) eps) with
    | Some ep => Some ep
    | None => commands !! name
    end.
Proof.
  induction eps as [|ep eps IH] using rev_ind; [done|].
  rewrite add_commands_snoc, filter_app.
  case_bool_decide as Hg.
  - destruct (decide (ep_name ep = name)) as [Hn|Hn].
    + rewrite (filter_cons_True _ ep), filter_nil by done.
      rewrite last_snoc. subst name. by rewrite lookup_insert_eq.
    + rewrite (filter_cons_False _ ep), filter_nil by (intros [??]; done).
      rewrite app_nil_r, lookup_insert_ne by done. apply IH.
  - rewrite (filter_cons_False _ ep), filter_nil by (intros [??]; done).
    rewrite app_nil_r. apply IH.
Qed.

Lemma load_commands_snoc plugins dist :
  load_commands_from_plugins (plugins ++ [dist])
  = match entry_points dist with
    | Some eps => add_commands (load_commands_from_plugins plugins) eps
    | None => load_commands_from_plugins plugins
    end.
Proof. unfold load_commands_from_plugins. by rewrite foldl_app. Qed.

Lemma load_commands_lookup plugins name :
  load_commands_from_plugins plugins !! name
  = last (filter (is_command name) (readable_entry_points plugins)).
Proof.
  induction plugins as [|dist plugins IH] using rev_ind; [done|].
  rewrite load_commands_snoc. unfold readable_entry_points.
  rewrite bind_app, filter_app. simpl. rewrite app_nil_r.
  fold (readable_entry_points plugins).
  destruct (entry_points dist) as [eps|]; simpl.
  - rewrite add_commands_lookup, IH.
    destruct (filter (is_command name) eps) as [|ep l] eqn:E using rev_ind.
    + by rewrite app_nil_r.
    + by rewrite app_assoc, !last_snoc.
  - by rewrite app_nil_r.
Qed.



(* ===================================================================== *)
(** * Resolver: steps, termination, invariant                             *)
(* ===================================================================== *)

Lemma pop_snoc {A} (l : list A) x : pop (l ++ [x]) = Some (l, x).
Proof. induction l as [|y l IH]; [done|]. simpl. by rewrite IH. Qed.

Lemma pop_Some {A} (l init : list A) x :
  pop l = Some (init, x) → l = init ++ [x].
Proof.
  revert init. induction l as [|y l IH]; intros init; simpl; [done|].
  destruct (pop l) as [[init' z]|] eqn:E.
  - intros [= <- <-]. simpl. f_equal. by apply IH.
  - intros [= <- <-]. destruct l as [|y' l]; [done|]. simpl in E.
    destruct (pop l) as [[??]|]; done.
Qed.

Lemma pop_None {A} (l : list A) : pop l = None → l = [].
Proof.
  destruct l as [|y l]; [done|]. simpl. destruct (pop l) as [[??]|]; done.
Qed.

Section ResolverFacts.

Variable str_of_error : string → string.

Lemma enqueue_filter found plugin_list entries :
  enqueue found plugin_list entries
  = plugin_list ++ filter (.∉ found) entries.
Proof.
  unfold enqueue. revert plugin_list.
  induction entries as [|x entries IH]; intros plugin_list; simpl.
  - by rewrite app_nil_r.
  - rewrite IH. case_bool_decide.
    + rewrite filter_cons_True by done. by rewrite <-app_assoc.
    + by rewrite filter_cons_False by auto.
Qed.

Lemma consult_entries dist found plugin_list :
  consult dist found plugin_list
  = plugin_list ++ filter (.∉ found) (manifest_entries dist).
Proof.
  unfold consult, manifest_entries.
  destruct (truthy (metadata_version dist)); [|by rewrite app_nil_r].
  destruct (read_text_plugins dist) as [data| |];
    try by rewrite app_nil_r.
  destruct (nonempty data); [|by rewrite app_nil_r].
  apply enqueue_filter.
Qed.

Lemma resolve_loop_step fuel reg plugin_list plugin found dist :
  reg !! plugin = Some dist →
  resolve_loop str_of_error (S fuel) reg (plugin_list ++ [plugin]) found
  = resolve_loop str_of_error fuel reg
      (plugin_list
         ++ filter (.∉ found ++ [plugin]) (manifest_entries dist))
      (found ++ [plugin]).
Proof.
  intros Hreg. simpl. rewrite pop_snoc. unfold distribution.
  rewrite Hreg. by rewrite consult_entries.
Qed.

Lemma resolve_loop_raise fuel reg plugin_list plugin found :
  reg !! plugin = None →
  resolve_loop str_of_error (S fuel) reg (plugin_list ++ [plugin]) found
  = Raised (if nonempty plugin
            then PackageNotFoundError
                   (not_found_message str_of_error plugin plugin)
            else ValueError name_required).
Proof.
  intros Hreg. simpl. rewrite pop_snoc. unfold distribution.
  rewrite Hreg. by destruct (nonempty plugin).
Qed.

(** More fuel does not change a result. *)
Lemma resolve_loop_fuel n m reg plugin_list found :
  n ≤ m →
  resolve_loop str_of_error n reg plugin_list found ≠ OutOfFuel →
  resolve_loop str_of_error m reg plugin_list found
  = resolve_loop str_of_error n reg plugin_list found.
Proof.
  revert m plugin_list found.
  induction n as [|n IH]; intros m plugin_list found Hle Hr; [done|].
  destruct m as [|m]; [lia|]. simpl in *.
  destruct (pop plugin_list) as [[init plugin]|]; [|done].
  destruct (distribution reg plugin) as [dist|e]; [|done].
  apply IH; [lia|done].
Qed.

Lemma not_found_message_contains arg plugin :
  contains plugin (not_found_message str_of_error arg plugin)
  ∧ contains "did you run python setup.py develop?"
      (not_found_message str_of_error arg plugin).
Proof.
  unfold not_found_message, msg, hint.
  case_bool_decide; split.
  - exists ((str_of_error arg +:+ ": ") +:+ "Not Found" +:+ " for" +:+ ": "),
      " (did you run python setup.py develop?)".
    by rewrite !sapp_assoc.
  - exists ((str_of_error arg +:+ ": ") +:+ "Not Found" +:+ " for" +:+ ": "
            +:+ plugin +:+ " ("), ")".
    by rewrite !sapp_assoc.
  - by exists ("" +:+ "Not Found" +:+ "" +:+ ": "),
      " (did you run python setup.py develop?)".
  - exists ("" +:+ "Not Found" +:+ "" +:+ ": " +:+ plugin +:+ " ("), ")".
    by rewrite !sapp_assoc.
Qed.

(** The final [map(get_distro, found)] cannot fail on registered
    names. *)
Lemma mapM_get_distro reg found :
  Forall (λ name, is_Some (reg !! name)) found →
  ∃ dists, mapM (get_distro reg) found = Return dists
           ∧ Forall2 (λ name dist, reg !! name = Some dist) found dists.
Proof.
  induction 1 as [|name found [dist Hd] _ (dists & IH & Hall)].
  - by exists [].
  - exists (dist :: dists). split; [|by constructor].
    simpl. rewrite IH. unfold get_distro, distribution. by rewrite Hd.
Qed.

End ResolverFacts.

Section ResolverTermination.

Variable str_of_error : string → string.
Variable reg : gmap string Distribution.

Lemma unfound_fresh found plugin :
  is_Some (reg !! plugin) → plugin ∉ found →
  unfound reg (found ++ [plugin]) < unfound reg found.
Proof.
  intros Hreg Hnew. unfold unfound. apply subset_size.
  rewrite list_to_set_snoc_L, <-difference_difference_l_L.
  apply subset_difference_elem_of, elem_of_difference.
  split; [by apply elem_of_dom|]. by rewrite elem_of_list_to_set.
Qed.

Lemma unfound_stale found plugin :
  plugin ∈ found → unfound reg (found ++ [plugin]) = unfound reg found.
Proof.
  intros Hin. unfold unfound. do 2 f_equal. apply set_eq. intros x.
  rewrite !elem_of_list_to_set, elem_of_app, list_elem_of_singleton.
  split; [by intros [?| ->]|by left].
Qed.

Lemma stale_pop plugin_list plugin found entries :
  plugin ∈ found →
  stale (plugin_list ++ filter (.∉ found ++ [plugin]) entries)
        (found ++ [plugin])
  < stale (plugin_list ++ [plugin]) found.
Proof.
  intros Hin. unfold stale. rewrite !filter_app, !length_app.
  rewrite (filter_cons_True _ plugin) by done. rewrite filter_nil. simpl.
  replace (filter (.∈ found ++ [plugin])
             (filter (.∉ found ++ [plugin]) entries)) with (@nil string).
  - rewrite (list_filter_iff (.∈ found ++ [plugin]) (.∈ found)); [simpl; lia|].
    intros x. rewrite elem_of_app, list_elem_of_singleton.
    split; [by intros [?| ->]|by left].
  - symmetry. rewrite list_filter_filter.
    induction entries as [|x entries IH]; [done|].
    rewrite filter_cons_False; [done|]. tauto.
Qed.

Lemma resolve_loop_terminates_aux a b :
  ∀ plugin_list found,
    unfound reg found = a → stale plugin_list found = b →
    ∃ fuel, resolve_loop str_of_error fuel reg plugin_list found
            ≠ OutOfFuel.
Proof.
  revert b. induction a as [a IHa] using lt_wf_ind.
  induction b as [b IHb] using lt_wf_ind.
  intros plugin_list found Ha Hb.
  destruct plugin_list as [|plugin plugin_list _] using rev_ind.
  { by exists 1. }
  destruct (reg !! plugin) as [dist|] eqn:Hreg.
  - destruct (decide (plugin ∈ found)) as [Hin|Hnew].
    + assert (stale (plugin_list
                       ++ filter (.∉ found ++ [plugin])
                            (manifest_entries dist))
                    (found ++ [plugin]) < b) as Hlt
        by (subst b; by apply stale_pop).
      assert (unfound reg (found ++ [plugin]) = a) as Hu
        by (subst a; by apply unfound_stale).
      destruct (IHb _ Hlt _ _ Hu eq_refl) as [fuel Hfuel].
      exists (S fuel). by rewrite (resolve_loop_step _ _ _ _ _ _ dist).
    + assert (unfound reg (found ++ [plugin]) < a) as Hlt
        by (subst a; by apply unfound_fresh).
      destruct (IHa _ Hlt _
                  (plugin_list
                     ++ filter (.∉ found ++ [plugin])
                          (manifest_entries dist))
                  _ eq_refl eq_refl) as [fuel Hfuel].
      exists (S fuel). by rewrite (resolve_loop_step _ _ _ _ _ _ dist).
  - exists 1. by rewrite resolve_loop_raise.
Qed.

(** The loop ends on every registry and every queue. *)
Lemma resolve_loop_terminates plugin_list found :
  ∃ fuel, resolve_loop str_of_error fuel reg plugin_list found ≠ OutOfFuel.
Proof. by eapply resolve_loop_terminates_aux. Qed.

(** Names found are registered. *)
Lemma resolve_loop_registered fuel plugin_list found result :
  Forall (λ name, is_Some (reg !! name)) found →
  resolve_loop str_of_error fuel reg plugin_list found = Done result →
  Forall (λ name, is_Some (reg !! name)) result.
Proof.
  revert plugin_list found.
  induction fuel as [|fuel IH]; intros plugin_list found Hf; [done|].
  destruct plugin_list as [|plugin plugin_list _] using rev_ind.
  { by intros [= <-]. }
  destruct (reg !! plugin) as [dist|] eqn:Hreg.
  - rewrite (resolve_loop_step _ _ _ _ _ _ dist) by done.
    apply IH. apply Forall_app. split; [done|]. by repeat constructor.
  - by rewrite resolve_loop_raise.
Qed.

(** An unregistered name on the queue makes the loop fail. *)
Lemma resolve_loop_missing fuel plugin_list found name result :
  name ∈ plugin_list → reg !! name = None →
  resolve_loop str_of_error fuel reg plugin_list found ≠ Done result.
Proof.
  revert plugin_list found.
  induction fuel as [|fuel IH]; intros plugin_list found Hin Hnone; [done|].
  destruct plugin_list as [|plugin plugin_list _] using rev_ind.
  { inversion Hin. }
  destruct (reg !! plugin) as [dist|] eqn:Hreg.
  - rewrite (resolve_loop_step _ _ _ _ _ _ dist) by done.
    apply IH; [|done]. apply elem_of_app in Hin as [Hin|Hin].
    + apply elem_of_app. by left.
    + apply list_elem_of_singleton in Hin. congruence.
  - by rewrite resolve_loop_raise.
Qed.

End ResolverTermination.

Section ResolverTop.

Variable str_of_error : string → string.
Variable reg : gmap string Distribution.

(** [resolve_plugins] returns the distributions of the names the loop
    found, or fails as the loop does; enough fuel exists. *)
Lemma resolve_plugins_total plugin_list :
  ∃ fuel0, ∀ fuel, fuel0 ≤ fuel →
    (∃ found dists,
        resolve_loop str_of_error fuel reg plugin_list [] = Done found
        ∧ resolve_plugins str_of_error fuel reg plugin_list = Done dists
        ∧ Forall2 (λ name dist, reg !! name = Some dist) found dists)
    ∨ (∃ e,
        resolve_loop str_of_error fuel reg plugin_list [] = Raised e
        ∧ resolve_plugins str_of_error fuel reg plugin_list = Raised e).
Proof.
  destruct (resolve_loop_terminates str_of_error reg plugin_list [])
    as [fuel0 Hfuel0].
  exists fuel0. intros fuel Hle. unfold resolve_plugins.
  rewrite (resolve_loop_fuel _ fuel0 fuel) by done.
  destruct (resolve_loop str_of_error fuel0 reg plugin_list [])
    as [found|e|] eqn:Hloop; [|right; by exists e|done].
  left. apply resolve_loop_registered in Hloop; [|done].
  destruct (mapM_get_distro reg found Hloop) as (dists & -> & Hall).
  by exists found, dists.
Qed.

End ResolverTop.

Section ResolverClaims.

Variable str_of_error : string → string.
Variable reg : gmap string Distribution.

(** Whatever the loop raises is the error of a name that is not
    registered: rewritten, or that of the empty name. *)
Lemma resolve_loop_raised fuel plugin_list found e :
  resolve_loop str_of_error fuel reg plugin_list found = Raised e →
  ∃ missing,
    reg !! missing = None
    ∧ e = if nonempty missing
          then PackageNotFoundError
                 (not_found_message str_of_error missing missing)
          else ValueError name_required.
Proof.
  revert plugin_list found.
  induction fuel as [|fuel IH]; intros plugin_list found; [done|].
  destruct plugin_list as [|plugin plugin_list _] using rev_ind; [done|].
  destruct (reg !! plugin) as [dist|] eqn:Hreg.
  - rewrite (resolve_loop_step _ _ _ _ _ _ dist) by done. apply IH.
  - rewrite resolve_loop_raise by done. intros [= <-]. by exists plugin.
Qed.

Lemma resolve_plugins_raised fuel plugin_list e :
  resolve_loop str_of_error fuel reg plugin_list [] = Raised e →
  resolve_plugins str_of_error fuel reg plugin_list = Raised e.
Proof. intros H. unfold resolve_plugins. by rewrite H. Qed.

End ResolverClaims.

(* ===================================================================== *)
(** * Stripping                                                           *)
(* ===================================================================== *)

Lemma is_LF_space c : is_LF c = true → is_space c = true.
Proof. unfold is_LF. case_bool_decide; [by subst|done]. Qed.

Lemma is_LF_linebreak c : is_LF c = true → is_linebreak c = true.
Proof. unfold is_LF. case_bool_decide; [by subst|done]. Qed.

Lemma is_newline_linebreak c : is_newline c = true → is_linebreak c = true.
Proof.
  unfold is_newline, is_LF. intros [H|H]%orb_true_iff;
    apply bool_decide_eq_true in H; by subst.
Qed.

Lemma is_newline_false c :
  is_newline c = false ↔ is_LF c = false ∧ c ≠ CR.
Proof.
  unfold is_newline. rewrite orb_false_iff, bool_decide_eq_false. done.
Qed.

Lemma rstrip_snoc s c :
  is_space c = true → rstrip (s +:+ String c "") = rstrip s.
Proof.
  intros Hc. induction s as [|a s IH].
  - simpl. by rewrite Hc.
  - rewrite sapp_cons. simpl. by rewrite IH.
Qed.

Lemma strip_snoc s c :
  is_space c = true → strip (s +:+ String c "") = strip s.
Proof. intros Hc. unfold strip. by rewrite rstrip_snoc. Qed.

Lemma strip_cons s c : is_space c = true → strip (String c s) = strip s.
Proof.
  intros Hc. unfold strip. simpl.
  destruct (rstrip s) as [|a r]; simpl; by rewrite Hc.
Qed.

Lemma strip_NL l : strip (l +:+ NL) = strip l.
Proof. by apply strip_snoc. Qed.

Lemma rstrip_split s :
  ∃ w, s = rstrip s +:+ w ∧ str_forall is_space w = true.
Proof.
  induction s as [|c s (w & Hs & Hw)]; [by exists ""|]. simpl.
  destruct (rstrip s) as [|a r] eqn:E.
  - destruct (is_space c) eqn:Hc.
    + exists (String c w). rewrite sapp_nil_l in *. simpl.
      rewrite Hc, Hw. by rewrite <-Hs.
    + exists w. rewrite sapp_cons. by rewrite <-Hs.
  - exists w. rewrite sapp_cons. by rewrite <-Hs.
Qed.

Lemma lstrip_idemp s : lstrip (lstrip s) = lstrip s.
Proof.
  induction s as [|c s IH]; [done|]. simpl.
  destruct (is_space c) eqn:Hc; [done|]. simpl. by rewrite Hc.
Qed.

Lemma rstrip_idemp s : rstrip (rstrip s) = rstrip s.
Proof.
  induction s as [|c s IH]; [done|]. simpl.
  destruct (rstrip s) as [|a r] eqn:E.
  - destruct (is_space c) eqn:Hc; [done|]. simpl. by rewrite Hc.
  - simpl in *. rewrite IH. done.
Qed.

Lemma rstrip_lstrip s : rstrip (lstrip s) = lstrip (rstrip s).
Proof.
  induction s as [|c s IH]; [done|]. simpl.
  destruct (is_space c) eqn:Hc.
  - rewrite IH. destruct (rstrip s) as [|a r]; simpl; by rewrite ?Hc.
  - simpl. destruct (rstrip s) as [|a r]; simpl; by rewrite ?Hc.
Qed.

Lemma strip_idemp s : strip (strip s) = strip s.
Proof.
  unfold strip. by rewrite rstrip_lstrip, rstrip_idemp, lstrip_idemp.
Qed.

Lemma str_forall_lstrip P s :
  str_forall P s = true → str_forall P (lstrip s) = true.
Proof.
  induction s as [|c s IH]; [done|]. simpl.
  intros [Hc Hs]%andb_true_iff. destruct (is_space c); [auto|].
  simpl. by rewrite Hc, Hs.
Qed.

Lemma str_forall_rstrip P s :
  str_forall P s = true → str_forall P (rstrip s) = true.
Proof.
  induction s as [|c s IH]; [done|]. simpl.
  intros [Hc Hs]%andb_true_iff. specialize (IH Hs).
  destruct (rstrip s) as [|a r].
  - destruct (is_space c); [done|]. simpl. by rewrite Hc.
  - simpl in *. by rewrite Hc, IH.
Qed.

Lemma str_forall_strip P s :
  str_forall P s = true → str_forall P (strip s) = true.
Proof. intros H. by apply str_forall_lstrip, str_forall_rstrip. Qed.

Lemma clean_line_spec l :
  clean_line l = true ↔
  nonempty l = true ∧ strip l = l
  ∧ str_forall (λ c, negb (is_LF c)) l = true.
Proof.
  unfold clean_line. rewrite !andb_true_iff, bool_decide_eq_true. tauto.
Qed.

(* ===================================================================== *)
(** * Splitting into lines                                                *)
(* ===================================================================== *)

Lemma stripped_app X Y : stripped (X ++ Y) = stripped X ++ stripped Y.
Proof. unfold stripped. by rewrite fmap_app, filter_app. Qed.

Lemma stripped_cons l X : stripped (l :: X) = stripped [l] ++ stripped X.
Proof. apply (stripped_app [l]). Qed.

Lemma stripped_blank l X : strip l = "" → stripped (l :: X) = stripped X.
Proof.
  intros Hl. unfold stripped. rewrite fmap_cons, Hl.
  by rewrite filter_cons_False by by_bool.
Qed.

Lemma stripped_same l l' X :
  strip l = strip l' → stripped (l :: X) = stripped (l' :: X).
Proof. intros Hl. unfold stripped. by rewrite !fmap_cons, Hl. Qed.

Lemma stripped_bind {A} (f : A → list string) (X : list A) :
  stripped (X ≫= f) = X ≫= λ x, stripped (f x).
Proof.
  induction X as [|x X IH]; [done|].
  by rewrite !bind_cons, stripped_app, IH.
Qed.

Lemma stripped_hd_tl X : stripped X = stripped (hd "" X :: tl X).
Proof. destruct X; [|done]. symmetry. by apply stripped_blank. Qed.

Lemma same_lines_stripped X Y : same_lines X Y → stripped X = stripped Y.
Proof.
  intros [Hhd Htl]. rewrite (stripped_hd_tl X), (stripped_hd_tl Y).
  rewrite stripped_cons, (stripped_cons _ (tl Y)), Htl. f_equal.
  apply stripped_same. apply (Hhd "").
Qed.

Lemma same_lines_cons_first c X Y :
  same_lines X Y → same_lines (cons_first c X) (cons_first c Y).
Proof.
  intros [Hhd Htl]. split.
  - intros p. specialize (Hhd (p +:+ String c "")).
    rewrite !sapp_assoc in Hhd. by destruct X, Y.
  - by destruct X, Y.
Qed.

Lemma same_lines_cons l l' X Y :
  (∀ p, strip (p +:+ l) = strip (p +:+ l')) →
  same_lines X Y → same_lines (l :: X) (l' :: Y).
Proof. intros Hl HXY. split; [done|]. by apply same_lines_stripped. Qed.

Lemma split_on_cons brk s : ∃ l X, split_on brk s = l :: X.
Proof.
  induction s as [|c s (l & X & IH)]; simpl; [by eauto|].
  rewrite IH. destruct (brk c); simpl; eauto.
Qed.

Lemma cons_first_app c X Y :
  X ≠ [] → cons_first c (X ++ Y) = cons_first c X ++ Y.
Proof. by destruct X. Qed.

Lemma readlines_split_on s :
  same_lines (readlines s) (split_on is_newline s).
Proof.
  assert (∀ p, strip (p +:+ String LF "") = strip (p +:+ "")) as Hend.
  { intros p. rewrite sapp_nil_r. by apply strip_snoc. }
  induction s as [|c s IH]; [done|]. cbn [readlines split_on].
  unfold is_newline at 1. destruct (is_LF c) eqn:Hc; cbn [orb].
  { by apply same_lines_cons. }
  case_bool_decide as Hcr; [|by apply same_lines_cons_first].
  destruct (startswith (String LF "") s) eqn:Hlf; [|by apply same_lines_cons].
  destruct s as [|a s]; [done|]. cbn [startswith] in Hlf.
  apply andb_true_iff in Hlf as [Ha _]. apply bool_decide_eq_true in Ha.
  subst a. destruct IH as [_ IH]. cbn [readlines split_on] in IH |- *.
  change (is_LF LF) with true in *. change (is_newline LF) with true in *.
  cbn [tl] in IH. split; [done|]. cbn [tl]. by rewrite (stripped_blank "").
Qed.

Lemma splitlines_split_on s :
  same_lines (splitlines s) (split_on is_linebreak s).
Proof.
  induction s as [|c s IH]; [done|]. cbn [splitlines split_on].
  destruct (is_linebreak c) eqn:Hc; [|by apply same_lines_cons_first].
  destruct (bool_decide (c = CR) && startswith (String LF "") s) eqn:Hcrlf;
    [|by apply same_lines_cons].
  apply andb_true_iff in Hcrlf as [_ Hlf].
  destruct s as [|a s]; [done|]. cbn [startswith] in Hlf.
  apply andb_true_iff in Hlf as [Ha _]. apply bool_decide_eq_true in Ha.
  subst a. destruct IH as [_ IH]. cbn [splitlines split_on] in IH |- *.
  change (is_linebreak LF) with true in *.
  change (bool_decide (LF = CR) && startswith (String LF "") s) with false
    in *.
  cbn [tl] in IH. split; [done|]. cbn [tl]. by rewrite (stripped_blank "").
Qed.

Lemma manifest_lines_stripped text :
  manifest_lines text = stripped (split_on is_newline text).
Proof.
  rewrite <-(same_lines_stripped _ _ (readlines_split_on text)).
  unfold manifest_lines, stripped.
  induction (readlines text) as [|l X IH]; [done|]. rewrite fmap_cons.
  destruct (nonempty (strip l)) eqn:E.
  - rewrite !filter_cons_True by by_bool. rewrite fmap_cons.
    by rewrite IH.
  - rewrite !filter_cons_False by by_bool. done.
Qed.

Lemma parse_fold acc X :
  foldl (λ result line,
           let line := strip line in
           if nonempty line && negb (startswith "#" line)
           then result ++ [line] else result) acc X
  = acc ++ filter (λ l, negb (is_comment l)) (stripped X).
Proof.
  unfold stripped. revert acc.
  induction X as [|l X IH]; intros acc; cbn [foldl].
  - by rewrite fmap_nil, !filter_nil, app_nil_r.
  - rewrite IH, fmap_cons. unfold is_comment.
    destruct (nonempty (strip l)) eqn:E; cbn [andb].
    + rewrite (filter_cons_True (λ l, nonempty l)) by by_bool.
      destruct (startswith "#" (strip l)) eqn:E'; cbn [negb].
      * by rewrite filter_cons_False by by_bool.
      * rewrite filter_cons_True by by_bool.
        by rewrite <-app_assoc.
    + by rewrite (filter_cons_False (λ l, nonempty l)) by by_bool.
Qed.

Lemma parse_lines_stripped data :
  parse_lines data
  = filter (λ l, negb (is_comment l)) (stripped (split_on is_linebreak data)).
Proof.
  rewrite <-(same_lines_stripped _ _ (splitlines_split_on data)).
  apply (parse_fold []).
Qed.

Lemma split_on_app brk a c b :
  brk c = true →
  split_on brk (a +:+ String c b) = split_on brk a ++ split_on brk b.
Proof.
  intros Hc. induction a as [|x a IH].
  - rewrite sapp_nil_l. simpl. by rewrite Hc.
  - rewrite sapp_cons. simpl. rewrite IH. destruct (brk x); [done|].
    apply cons_first_app. destruct (split_on_cons brk a) as (l & X & ->).
    done.
Qed.

Lemma split_on_nested s :
  split_on is_linebreak s
  = split_on is_newline s ≫= split_on is_linebreak.
Proof.
  induction s as [|c s IH]; simpl; [done|].
  destruct (is_newline c) eqn:Hc.
  - rewrite (is_newline_linebreak c Hc), bind_cons, IH. done.
  - destruct (split_on_cons is_newline s) as (l & X & E). rewrite E in *.
    simpl. rewrite bind_cons in *. simpl. rewrite IH.
    destruct (is_linebreak c); [done|].
    apply cons_first_app. destruct (split_on_cons is_linebreak l)
      as (l' & X' & ->). done.
Qed.

(** Whitespace around a text does not show in its stripped pieces. *)
Lemma stripped_split_cons brk c s :
  is_space c = true →
  stripped (split_on brk (String c s)) = stripped (split_on brk s).
Proof.
  intros Hc. simpl. destruct (brk c).
  - by apply stripped_blank.
  - destruct (split_on_cons brk s) as (l & X & ->). simpl.
    apply stripped_same. by apply strip_cons.
Qed.

Lemma stripped_split_lstrip brk s :
  stripped (split_on brk (lstrip s)) = stripped (split_on brk s).
Proof.
  induction s as [|c s IH]; [done|]. simpl lstrip.
  destruct (is_space c) eqn:Hc; [|done].
  by rewrite stripped_split_cons.
Qed.

Lemma split_on_snoc brk s c :
  is_space c = true →
  same_lines (split_on brk (s +:+ String c "")) (split_on brk s).
Proof.
  intros Hc. induction s as [|x s IH].
  - rewrite sapp_nil_l. simpl. destruct (brk c).
    + split; [done|]. simpl. by apply stripped_blank.
    + split; [|done]. intros p. simpl. rewrite sapp_nil_r.
      by apply strip_snoc.
  - rewrite sapp_cons. simpl. destruct (brk x).
    + by apply same_lines_cons.
    + by apply same_lines_cons_first.
Qed.

Lemma stripped_split_spaces brk s w :
  str_forall is_space w = true →
  stripped (split_on brk (s +:+ w)) = stripped (split_on brk s).
Proof.
  revert s. induction w as [|c w IH]; intros s; simpl.
  - by rewrite sapp_nil_r.
  - intros [Hc Hw]%andb_true_iff.
    change (String c w) with (String c "" +:+ w).
    rewrite <-sapp_assoc, IH by done.
    by apply same_lines_stripped, split_on_snoc.
Qed.

Lemma stripped_split_strip brk s :
  stripped (split_on brk (strip s)) = stripped (split_on brk s).
Proof.
  unfold strip. rewrite stripped_split_lstrip.
  destruct (rstrip_split s) as (w & Hs & Hw).
  rewrite Hs at 2. by rewrite stripped_split_spaces.
Qed.

Lemma parse_lines_strip s : parse_lines (strip s) = parse_lines s.
Proof. by rewrite !parse_lines_stripped, stripped_split_strip. Qed.

Lemma parse_lines_app a b :
  parse_lines (a +:+ NL +:+ b) = parse_lines a ++ parse_lines b.
Proof.
  rewrite !parse_lines_stripped. unfold NL. rewrite sapp_cons, sapp_nil_l.
  by rewrite split_on_app, stripped_app, filter_app.
Qed.

(** Reading back what was written, with [parse_lines]. *)
Lemma parse_lines_write_lines lines :
  parse_lines (write_lines lines) = lines ≫= parse_lines.
Proof.
  induction lines as [|l lines IH]; [done|].
  simpl. by rewrite parse_lines_app, IH.
Qed.

(** The lines the manifest functions keep hold what [parse_lines] reads
    from the file. *)
Lemma manifest_lines_parse text :
  manifest_lines text ≫= parse_lines = parse_lines text.
Proof.
  rewrite (parse_lines_stripped text), split_on_nested, stripped_bind.
  rewrite manifest_lines_stripped. unfold stripped at 1.
  induction (split_on is_newline text) as [|p X IH]; [done|].
  rewrite fmap_cons, bind_cons, filter_app, <-IH.
  rewrite <-parse_lines_stripped, <-(parse_lines_strip p).
  destruct (nonempty (strip p)) eqn:E.
  - by rewrite filter_cons_True by by_bool.
  - rewrite filter_cons_False by by_bool.
    destruct (strip p); done.
Qed.

(* ===================================================================== *)
(** * What is written can be read back                                    *)
(* ===================================================================== *)

Lemma split_on_none brk l :
  str_forall (λ c, negb (brk c)) l = true → split_on brk l = [l].
Proof.
  induction l as [|c l IH]; [done|]. simpl.
  intros [Hc Hl]%andb_true_iff. apply negb_true_iff in Hc.
  by rewrite Hc, IH.
Qed.

Lemma split_on_pieces brk s :
  Forall (λ p, str_forall (λ c, negb (brk c)) p = true) (split_on brk s).
Proof.
  induction s as [|c s IH]; simpl; [by repeat constructor|].
  destruct (brk c) eqn:Hc; [by constructor|].
  destruct IH as [|p X Hp HX]; simpl.
  - constructor; [simpl; by rewrite Hc|constructor].
  - constructor; [simpl; by rewrite Hc, Hp|done].
Qed.

Lemma stripped_clean l :
  nonempty l = true → strip l = l → stripped [l] = [l].
Proof.
  intros Hne Hl. unfold stripped. rewrite fmap_cons, Hl.
  by rewrite filter_cons_True by by_bool.
Qed.

Lemma str_forall_impl (P Q : ascii → bool) s :
  (∀ c, P c = true → Q c = true) →
  str_forall P s = true → str_forall Q s = true.
Proof.
  intros HPQ. induction s as [|c s IH]; [done|]. simpl.
  intros [Hc Hs]%andb_true_iff. by rewrite (HPQ c Hc), IH.
Qed.

Lemma str_forall_and (P Q : ascii → bool) s :
  str_forall P s = true → str_forall Q s = true →
  str_forall (λ c, P c && Q c) s = true.
Proof.
  induction s as [|c s IH]; [done|]. simpl.
  intros [Hc Hs]%andb_true_iff [Hc' Hs']%andb_true_iff.
  by rewrite Hc, Hc', IH.
Qed.

(** A line without LF and CR holds no line end of a text file. *)
Lemma no_newline l :
  str_forall (λ c, negb (is_LF c)) l = true → no_CR l = true →
  str_forall (λ c, negb (is_newline c)) l = true.
Proof.
  intros Hlf Hcr. unfold no_CR in Hcr.
  eapply str_forall_impl; [|exact (str_forall_and _ _ _ Hlf Hcr)].
  intros c [H1 H2]%andb_true_iff. unfold is_newline.
  apply negb_true_iff in H1, H2. by rewrite H1, H2.
Qed.

(** The lines read from a text file: not empty, stripped, without LF
    and without CR. *)
Lemma manifest_lines_piece text l :
  l ∈ manifest_lines text →
  nonempty l = true ∧ strip l = l
  ∧ str_forall (λ c, negb (is_newline c)) l = true.
Proof.
  rewrite manifest_lines_stripped. unfold stripped.
  rewrite list_elem_of_filter, list_elem_of_fmap.
  intros (Hne & p & -> & Hp).
  split; [by apply Is_true_true_1|]. split; [apply strip_idemp|].
  apply str_forall_strip.
  by apply (proj1 (Forall_forall _ _) (split_on_pieces is_newline text)).
Qed.

Lemma manifest_lines_clean text :
  Forall (λ l, clean_line l = true) (manifest_lines text).
Proof.
  apply Forall_forall. intros l (Hne & Hstrip & Hnl)%manifest_lines_piece.
  apply clean_line_spec. split_and!; [done..|].
  eapply str_forall_impl; [|exact Hnl]. intros c Hc.
  apply negb_true_iff, is_newline_false in Hc as [Hc _]. by rewrite Hc.
Qed.

Lemma manifest_lines_no_CR text :
  Forall (λ l, no_CR l = true) (manifest_lines text).
Proof.
  apply Forall_forall. intros l (_ & _ & Hnl)%manifest_lines_piece.
  unfold no_CR. eapply str_forall_impl; [|exact Hnl]. intros c Hc.
  apply negb_true_iff, is_newline_false in Hc as [_ Hc].
  by rewrite bool_decide_eq_false_2.
Qed.

Lemma manifest_lines_write_lines lines :
  Forall (λ l, clean_line l = true) lines →
  Forall (λ l, no_CR l = true) lines →
  manifest_lines (write_lines lines) = lines.
Proof.
  rewrite manifest_lines_stripped.
  induction 1 as [|l lines Hl _ IH]; [done|].
  intros [Hcr Hcrs]%Forall_cons.
  apply clean_line_spec in Hl as (Hne & Hstrip & Hlf).
  simpl. unfold NL. rewrite sapp_cons, sapp_nil_l.
  rewrite split_on_app, stripped_app, IH by done.
  by rewrite split_on_none, stripped_clean by (by try apply no_newline).
Qed.

Lemma readlines_line l rest :
  str_forall (λ c, negb (is_newline c)) l = true →
  readlines (l +:+ NL +:+ rest) = (l +:+ NL) :: readlines rest.
Proof.
  induction l as [|c l IH]; [done|]. simpl.
  intros [Hc Hl]%andb_true_iff.
  apply negb_true_iff, is_newline_false in Hc as [Hlf Hcr].
  rewrite !sapp_cons. simpl.
  by rewrite Hlf, (bool_decide_eq_false_2 (c = CR)), IH.
Qed.

Lemma readlines_write_lines lines :
  Forall (λ l, clean_line l = true) lines →
  Forall (λ l, no_CR l = true) lines →
  readlines (write_lines lines) = (λ l, l +:+ NL) <$> lines.
Proof.
  induction 1 as [|l lines Hl _ IH]; [done|].
  intros [Hcr Hcrs]%Forall_cons.
  apply clean_line_spec in Hl as (_ & _ & Hlf).
  simpl. by rewrite readlines_line, IH by (by try apply no_newline).
Qed.

Lemma parse_lines_plain l :
  clean_line l = true → plain_line l = true →
  parse_lines l = if is_comment l then [] else [l].
Proof.
  intros (Hne & Hstrip & _)%clean_line_spec Hplain.
  rewrite parse_lines_stripped, split_on_none, stripped_clean by done.
  destruct (is_comment l) eqn:E.
  - by rewrite filter_cons_False by by_bool.
  - by rewrite filter_cons_True by by_bool.
Qed.

(* ===================================================================== *)
(** * The manifest store                                                  *)
(* ===================================================================== *)

Lemma find_line_None plugin_name lines :
  find_line plugin_name lines = None
  ↔ Forall (λ l, ¬ matches plugin_name l) lines.
Proof.
  unfold matches. induction lines as [|l lines IH]; simpl.
  - split; [constructor|done].
  - case_bool_decide as Hl.
    + split; [done|]. by inversion 1.
    + rewrite IH. split; [by constructor|]. by inversion 1.
Qed.

Lemma find_line_first plugin_name before line after :
  Forall (λ l, ¬ matches plugin_name l) before →
  matches plugin_name line →
  find_line plugin_name (before ++ line :: after) = Some line.
Proof.
  unfold matches. intros Hb Hl.
  induction Hb as [|l before Hn _ IH]; simpl.
  - by rewrite bool_decide_eq_true_2.
  - by rewrite bool_decide_eq_false_2.
Qed.

Lemma list_remove_first plugin_name before line after :
  Forall (λ l, ¬ matches plugin_name l) before →
  matches plugin_name line →
  list_remove line (before ++ line :: after) = before ++ after.
Proof.
  unfold matches. intros Hb Hl.
  induction Hb as [|l before Hn _ IH]; simpl.
  - by rewrite bool_decide_eq_true_2.
  - rewrite bool_decide_eq_false_2 by congruence. by rewrite IH.
Qed.

Lemma has_sep_app a b : has_sep (a +:+ b) = has_sep a || has_sep b.
Proof.
  induction a as [|c a IH]; [done|]. rewrite sapp_cons. simpl.
  by rewrite IH, orb_assoc.
Qed.

Lemma endswith_sep d : endswith (String sep "") d = true → has_sep d = true.
Proof.
  induction d as [|c d IH]; [done|]. simpl.
  intros [Hd|Hd]%orb_true_iff.
  - apply bool_decide_eq_true in Hd as [= -> ->]. done.
  - rewrite IH by done. apply orb_true_r.
Qed.

Lemma upto_last_sep_nonempty s :
  has_sep s = true → nonempty (upto_last_sep s) = true.
Proof.
  induction s as [|c s IH]; [done|]. simpl.
  destruct (upto_last_sep s) as [|a r]; [|done].
  destruct (is_sep c); [done|]. simpl. intros Hs. by apply IH in Hs.
Qed.

Lemma rstrip_sep_nonempty h :
  all_sep h = false → nonempty (rstrip_sep h) = true.
Proof.
  induction h as [|c h IH]; [done|]. simpl.
  destruct (rstrip_sep h) as [|a r]; [|done].
  destruct (is_sep c); [|done]. simpl. intros Hh. by apply IH in Hh.
Qed.

Lemma join_manifest_nonempty d : nonempty (join d manifest_name) = true.
Proof.
  unfold join. change (startswith (String sep "") manifest_name) with false.
  cbv iota. destruct d as [|c d]; [done|].
  by destruct (negb (nonempty (String c d)) || endswith _ _).
Qed.

(** The manifest of a directory with a name lies in a directory with a
    name. *)
Lemma dirname_join_nonempty d :
  nonempty d = true → nonempty (dirname (join d manifest_name)) = true.
Proof.
  intros Hd.
  assert (has_sep (join d manifest_name) = true) as Hsep.
  { unfold join. change (startswith (String sep "") manifest_name) with false.
    cbv iota. rewrite Hd. simpl.
    destruct (endswith (String sep "") d) eqn:E.
    - rewrite has_sep_app, endswith_sep by done. done.
    - rewrite has_sep_app. simpl. apply orb_true_r. }
  apply upto_last_sep_nonempty in Hsep. unfold dirname. rewrite Hsep. simpl.
  destruct (all_sep _) eqn:E; [done|]. by apply rstrip_sep_nonempty.
Qed.

Lemma path_exists_file fs egg_info_dir text :
  files fs !! join egg_info_dir manifest_name = Some text →
  path_exists fs (join egg_info_dir manifest_name) = true.
Proof.
  intros H. unfold path_exists. rewrite H, join_manifest_nonempty.
  by rewrite bool_decide_eq_true_2 by by eexists.
Qed.








(** The step [if not os.path.exists(d): os.makedirs(d)] goes through
    when [d] is a directory, and when it is a path the operating system
    takes that does not lie under a regular file. *)
Lemma ensure_parent_dir fs d :
  nonempty d = true → d ∈ dirs fs →
  (if path_exists fs d then mret fs else makedirs fs d) = Return fs.
Proof.
  intros Hd Hin. unfold path_exists. rewrite Hd.
  rewrite (bool_decide_eq_true_2 (d ∈ dirs fs)) by done.
  by rewrite orb_true_r.
Qed.



(** What [add_plugin] does once the step that ensures the directory of
    the manifest goes through. *)
Lemma add_plugin_append fs fs0 egg_info_dir plugin_name text :
  (if path_exists fs (dirname (join egg_info_dir manifest_name))
   then mret fs
   else makedirs fs (dirname (join egg_info_dir manifest_name)))
  = Return fs0 →
  files fs0 = files fs →
  files fs !! join egg_info_dir manifest_name = Some text →
  plugin_name ∉ manifest_lines text →
  ∃ fs',
    add_plugin fs egg_info_dir plugin_name = Return fs'
    ∧ files fs' = <[join egg_info_dir manifest_name :=
                      write_lines (manifest_lines text ++ [plugin_name])]>
                    (files fs)
    ∧ dirs fs' = dirs fs0.
Proof.
  intros Hparent Hfiles Hf Hin. unfold add_plugin, open_read.
  rewrite (path_exists_file _ _ _ Hf), Hf. simpl.
  rewrite bool_decide_eq_false_2 by done. rewrite Hparent.
  eexists. split; [done|]. simpl. by rewrite Hfiles.
Qed.






Lemma bind_parse_plain lines :
  Forall (λ l, clean_line l = true) lines →
  Forall (λ l, plain_line l = true) lines →
  lines ≫= parse_lines = filter (λ l, negb (is_comment l)) lines.
Proof.
  induction 1 as [|l lines Hl _ IH]; [done|].
  intros [Hp Hps]%Forall_cons. rewrite bind_cons, IH by done.
  rewrite parse_lines_plain by done.
  destruct (is_comment l) eqn:E.
  - by rewrite filter_cons_False by by_bool.
  - by rewrite filter_cons_True by by_bool.
Qed.

Lemma clean_remove before line after :
  Forall (λ l, clean_line l = true) (before ++ line :: after) →
  Forall (λ l, clean_line l = true) (before ++ after).
Proof.
  rewrite !Forall_app, Forall_cons. tauto.
Qed.

Lemma no_CR_remove before line after :
  Forall (λ l, no_CR l = true) (before ++ line :: after) →
  Forall (λ l, no_CR l = true) (before ++ after).
Proof.
  rewrite !Forall_app, Forall_cons. tauto.
Qed.







Lemma remove_plugin_found repr_lines fs egg_info_dir plugin_name text line :
  files fs !! join egg_info_dir manifest_name = Some text →
  find_line plugin_name (manifest_lines text) = Some line →
  remove_plugin repr_lines fs egg_info_dir plugin_name
  = Return (open_write fs (join egg_info_dir manifest_name)
              (write_lines (list_remove line (manifest_lines text)))).
Proof.
  intros Hf Hfind. unfold remove_plugin, open_read.
  rewrite (path_exists_file _ _ _ Hf), Hf. simpl. by rewrite Hfind.
Qed.

(** C5 (as amended).  When the first line of the manifest that equals
    the name up to case is [line], [remove_plugin] succeeds and rewrites
    the manifest without that one line.  [parse_lines] then reads what it
    reads from the lines that stay: a further spelling of the name is
    still there, and none is left when [line] was the only one. *)
Theorem remove_plugin_case_variant
    (repr_lines : list string → string) (fs : filesystem)
    (egg_info_dir plugin_name text : string)
    (before : list string) (line : string) (after : list string) :
  files fs !! join egg_info_dir manifest_name = Some text →
  manifest_lines text = before ++ line :: after →
  Forall (λ l, ¬ matches plugin_name l) before →
  matches plugin_name line →
  ∃ fs' text',
    remove_plugin repr_lines fs egg_info_dir plugin_name = Return fs'
    ∧ files fs' !! join egg_info_dir manifest_name = Some text'
    ∧ text' = write_lines (before ++ after)
    ∧ manifest_lines text' = before ++ after
    ∧ parse_lines text' = (before ++ after) ≫= parse_lines
    ∧ (Forall (λ l, ¬ matches plugin_name l) after →
       Forall (λ l, plain_line l = true) (before ++ after) →
       Forall (λ l, ¬ matches plugin_name l) (parse_lines text')
       ∧ plugin_name ∉ parse_lines text').
Proof.
  intros Hf Hlines Hbefore Hline.
  pose proof (manifest_lines_clean text) as Hclean. rewrite Hlines in Hclean.
  apply clean_remove in Hclean.
  pose proof (manifest_lines_no_CR text) as Hcr. rewrite Hlines in Hcr.
  apply no_CR_remove in Hcr.
  exists (open_write fs (join egg_info_dir manifest_name)
            (write_lines (before ++ after))), (write_lines (before ++ after)).
  split.
  { rewrite <-(list_remove_first plugin_name before line after) by done.
    rewrite <-Hlines. apply remove_plugin_found; [done|].
    rewrite Hlines. by apply find_line_first. }
  split; [by simpl; rewrite lookup_insert_eq|]. split; [done|].
  split; [by apply manifest_lines_write_lines|].
  split; [apply parse_lines_write_lines|].
  intros Hafter Hplain.
  rewrite parse_lines_write_lines, bind_parse_plain by done.
  assert (Forall (λ l, ¬ matches plugin_name l)
            (filter (λ l, negb (is_comment l)) (before ++ after))) as Hnone.
  { apply Forall_forall. intros l [_ Hl]%list_elem_of_filter.
    revert l Hl. apply Forall_forall, Forall_app. by split. }
  split; [done|]. intros Hin.
  by apply (proj1 (Forall_forall _ _) Hnone _ Hin).
Qed.

Lemma remove_plugin_case_variant_witness :
  ∃ fs' text',
    remove_plugin repr_plain commented_fs demo_dir "foo" = Return fs'
    ∧ files fs' !! join demo_dir manifest_name = Some text'
    ∧ text' = write_lines (["# my plugins"] ++ [])
    ∧ manifest_lines text' = ["# my plugins"] ++ []
    ∧ parse_lines text' = (["# my plugins"] ++ []) ≫= parse_lines
    ∧ (Forall (λ l, ¬ matches "foo" l) [] →
       Forall (λ l, plain_line l = true) (["# my plugins"] ++ []) →
       Forall (λ l, ¬ matches "foo" l) (parse_lines text')
       ∧ "foo" ∉ parse_lines text').
Proof.
  apply (remove_plugin_case_variant repr_plain commented_fs demo_dir "foo"
           commented_text ["# my plugins"] "Foo" []).
  - reflexivity.
  - reflexivity.
  - repeat constructor. vm_compute. discriminate.
  - reflexivity.
Defined.

(** C5 fails as stated: after [add "X"] and [add "x"], [remove "x"]
    takes the line [X] away, and [parse_lines] still reads [x] from the
    manifest.  It also reads [x] from a line that stays and holds a
    vertical tab before [x]. *)
Lemma remove_plugin_leaves_name :
  (fs1 ← add_plugin empty_fs demo_dir "X";
   fs2 ← add_plugin fs1 demo_dir "x";
   fs3 ← remove_plugin repr_plain fs2 demo_dir "x";
   mret (files fs2 !! demo_manifest, files fs3 !! demo_manifest,
         parse_lines <$> files fs3 !! demo_manifest))
  = Return (Some (write_lines ["X"; "x"]), Some (write_lines ["x"]),
            Some ["x"])
  ∧ "x" ∈ ["x"]
  ∧ (fs' ← remove_plugin repr_plain tabbed_fs demo_dir "x";
     mret (files fs' !! demo_manifest,
           parse_lines <$> files fs' !! demo_manifest))
    = Return (Some (write_lines [tabbed_line]), Some ["q"; "x"]).
Proof. split; [by vm_compute|]. split; [by left|by vm_compute]. Qed.

(** C6.  [remove_plugin] raises [ValueError] when the manifest file does
    not exist, and when no line equals the name up to case; the second
    message holds the name and the lines read.  Nothing catches either. *)
Theorem remove_plugin_errors
    (repr_lines : list string → string) (fs : filesystem)
    (egg_info_dir plugin_name : string) :
  (path_exists fs (join egg_info_dir manifest_name) = false →
   remove_plugin repr_lines fs egg_info_dir plugin_name
   = Raise (ValueError
              (not_exist_message (join egg_info_dir manifest_name))))
  ∧ (∀ text,
       files fs !! join egg_info_dir manifest_name = Some text →
       Forall (λ l, ¬ matches plugin_name l) (manifest_lines text) →
       remove_plugin repr_lines fs egg_info_dir plugin_name
       = Raise (ValueError
                  (not_in_file_message repr_lines plugin_name
                     (join egg_info_dir manifest_name)
                     (manifest_lines text)))
       ∧ contains plugin_name
           (not_in_file_message repr_lines plugin_name
              (join egg_info_dir manifest_name) (manifest_lines text))
       ∧ contains (repr_lines (manifest_lines text))
           (not_in_file_message repr_lines plugin_name
              (join egg_info_dir manifest_name) (manifest_lines text))).
Proof.
  split.
  - intros Hf. unfold remove_plugin. by rewrite Hf.
  - intros text Hf Hnone. split; [|split].
    + unfold remove_plugin, open_read.
      rewrite (path_exists_file _ _ _ Hf), Hf. simpl.
      apply find_line_None in Hnone. by rewrite Hnone.
    + by exists "Plugin ", (" not found in file "
        +:+ join egg_info_dir manifest_name +:+ " (from: "
        +:+ repr_lines (manifest_lines text) +:+ ")").
    + exists ("Plugin " +:+ plugin_name +:+ " not found in file "
              +:+ join egg_info_dir manifest_name +:+ " (from: "), ")".
      unfold not_in_file_message. by rewrite !sapp_assoc.
Qed.

Lemma remove_plugin_errors_witness :
  remove_plugin repr_plain empty_fs demo_dir "Foo"
  = Raise (ValueError
      "Cannot remove plugin from proj/Foo.egg-info/paster_plugins.txt; file does not exist")
  ∧ remove_plugin repr_plain commented_fs demo_dir "Bar"
    = Raise (ValueError
        "Plugin Bar not found in file proj/Foo.egg-info/paster_plugins.txt (from: ['# my plugins', 'Foo'])").
Proof.
  split.
  - apply (proj1 (remove_plugin_errors repr_plain empty_fs demo_dir "Foo")).
    reflexivity.
  - apply (proj2 (remove_plugin_errors repr_plain commented_fs demo_dir "Bar")
             commented_text).
    + reflexivity.
    + repeat constructor; vm_compute; discriminate.
Defined.

(** C8 (as amended).  For a manifest file that lies in a directory
    with a non-empty name, [add_plugin] of a new name (a non-empty line
    without surrounding whitespace, line feed or carriage return)
    rewrites the manifest with every non-blank line of the old file,
    comment lines included, stripped and in order, then the new name: the
    blank lines are gone and the comments stay.  [parse_lines] reads from
    the new file what it read from the old one, in the same order, then
    what it reads from the name; and from the old lines written back
    alone it reads what it read from the old file. *)
Theorem add_plugin_rewrite
    (fs : filesystem) (egg_info_dir plugin_name text : string) :
  nonempty egg_info_dir = true →
  files fs !! join egg_info_dir manifest_name = Some text →
  dirname (join egg_info_dir manifest_name) ∈ dirs fs →
  clean_line plugin_name = true →
  no_CR plugin_name = true →
  plugin_name ∉ manifest_lines text →
  ∃ fs' text',
    add_plugin fs egg_info_dir plugin_name = Return fs'
    ∧ files fs' !! join egg_info_dir manifest_name = Some text'
    ∧ readlines text'
      = (λ l, l +:+ NL) <$> (manifest_lines text ++ [plugin_name])
    ∧ Forall (λ raw, nonempty (strip raw) = true) (readlines text')
    ∧ (∀ raw, raw ∈ readlines text → nonempty (strip raw) = true →
              strip raw +:+ NL ∈ readlines text')
    ∧ parse_lines text' = parse_lines text ++ parse_lines plugin_name
    ∧ parse_lines (write_lines (manifest_lines text)) = parse_lines text.
Proof.
  intros Hdir Hf Hparent Hclean Hcr Hnotin.
  destruct (add_plugin_append fs fs egg_info_dir plugin_name text
              (ensure_parent_dir _ _ (dirname_join_nonempty _ Hdir) Hparent)
              eq_refl Hf Hnotin) as (fs' & Hadd & Hfs & _).
  assert (Forall (λ l, clean_line l = true)
            (manifest_lines text ++ [plugin_name])) as Hall.
  { apply Forall_app. split; [apply manifest_lines_clean|].
    by repeat constructor. }
  assert (Forall (λ l, no_CR l = true)
            (manifest_lines text ++ [plugin_name])) as Hallcr.
  { apply Forall_app. split; [apply manifest_lines_no_CR|].
    by repeat constructor. }
  assert (files fs' !! join egg_info_dir manifest_name
          = Some (write_lines (manifest_lines text ++ [plugin_name])))
    as Hf' by by rewrite Hfs, lookup_insert_eq.
  exists fs', (write_lines (manifest_lines text ++ [plugin_name])).
  rewrite readlines_write_lines by done.
  split; [done|]. split; [done|]. split; [done|]. split; [|split; [|split]].
  - apply Forall_fmap. eapply Forall_impl; [exact Hall|].
    intros l (Hne & Hstrip & _)%clean_line_spec. simpl.
    by rewrite strip_NL, Hstrip.
  - intros raw Hraw Hne. apply list_elem_of_fmap.
    exists (strip raw). split; [done|]. apply elem_of_app. left.
    unfold manifest_lines. apply list_elem_of_fmap. exists raw.
    split; [done|]. apply list_elem_of_filter. split; [by_bool|done].
  - rewrite parse_lines_write_lines, bind_app, manifest_lines_parse.
    simpl. by rewrite app_nil_r.
  - by rewrite parse_lines_write_lines, manifest_lines_parse.
Qed.

Lemma add_plugin_rewrite_witness :
  ∃ fs' text',
    add_plugin commented_fs demo_dir "Bar" = Return fs'
    ∧ files fs' !! join demo_dir manifest_name = Some text'
    ∧ readlines text'
      = (λ l, l +:+ NL) <$> (manifest_lines commented_text ++ ["Bar"])
    ∧ Forall (λ raw, nonempty (strip raw) = true) (readlines text')
    ∧ (∀ raw, raw ∈ readlines commented_text →
              nonempty (strip raw) = true →
              strip raw +:+ NL ∈ readlines text')
    ∧ parse_lines text' = parse_lines commented_text ++ parse_lines "Bar"
    ∧ parse_lines (write_lines (manifest_lines commented_text))
      = parse_lines commented_text.
Proof.
  apply (add_plugin_rewrite commented_fs demo_dir "Bar").
  - reflexivity.
  - reflexivity.
  - compute_done.
  - reflexivity.
  - reflexivity.
  - compute_done.
Defined.

(** C8 fails as stated: the comment line is still in the file after
    [add_plugin] has rewritten it. *)
Lemma add_plugin_comment_stays :
  (fs' ← add_plugin commented_fs demo_dir "Bar";
   mret (files fs' !! demo_manifest))
  = Return (Some (write_lines ["# my plugins"; "Foo"; "Bar"]))
  ∧ readlines (write_lines ["# my plugins"; "Foo"; "Bar"])
    = ["# my plugins" +:+ NL; "Foo" +:+ NL; "Bar" +:+ NL]
  ∧ is_comment (strip ("# my plugins" +:+ NL)) = true.
Proof. repeat split; by vm_compute. Qed.

(* ===================================================================== *)
(** * Further definitions on concrete inputs                              *)
(* ===================================================================== *)

Example egg_name_ex :
  egg_name "Paste-Script 1.0_x" = "paste_script_1.0_x"
  ∧ _safe_name "Foo Bar" = "foo_bar"
  ∧ _to_filename "Foo-Bar baz" = "Foo_Bar_baz".
Proof. repeat split. Qed.

(** The characters an egg name keeps: [.], the digits, and the letters,
    upper case lowered; every other one becomes [_]. *)
Example egg_name_chars_ex :
  filter (λ n, bool_decide (egg_name (String (ascii_of_nat n) "") ≠ "_"))
    (seq 0 256)
  = [46] ++ seq 48 10 ++ seq 65 26 ++ seq 97 26
  ∧ (λ n, egg_name (String (ascii_of_nat n) "")) <$> seq 65 26
    = (λ n, String (ascii_of_nat n) "") <$> seq 97 26.
Proof. split; by vm_compute. Qed.

Example join_with_ex :
  join_with ", " [] = "" ∧ join_with ", " ["a"] = "a"
  ∧ join_with ", " ["a"; "b"; "c"] = "a, b, c".
Proof. repeat split. Qed.

Example egg_info_dir_ex :
  egg_info_dir egg_listdir egg_exists "base" "Foo-Bar"
  = Return "base/lib/foo_bar.egg-info"
  ∧ egg_info_dir egg_listdir egg_exists "base" "Other"
    = Raise (OSError "No egg-info directory found (looked in base/./other.egg-info, base/src/other.egg-info, base/lib/other.egg-info)")
  ∧ egg_info_dir egg_listdir egg_exists "nowhere" "Foo-Bar"
    = Raise (OSError "nowhere").
Proof. repeat split. Qed.

Example load_global_commands_ex :
  load_global_commands demo_eps = {[ "serve" := global_serve ]}.
Proof. by vm_compute. Qed.

Example get_groups_by_pattern_ex :
  get_groups_by_pattern None demo_eps
    ["paste.paster_command"; "paste.description.console_scripts";
     "console_scripts"; "paste.global_paster_command"; "unused"]
  = ["console_scripts"; "paste.global_paster_command"; "paste.paster_command"]
  ∧ get_groups_by_pattern (Some (startswith "paste.d")) demo_eps
      ["paste.paster_command"; "paste.description.console_scripts";
       "console_scripts"; "paste.global_paster_command"]
    = ["paste.description.console_scripts"].
Proof. split; by vm_compute. Qed.

Example sorted_ex :
  sorted ["b"; "a/"; "ab"; "B"; ""; "a."; "a"]
  = [""; "B"; "a"; "a."; "a/"; "ab"; "b"].
Proof. by vm_compute. Qed.

Example ep_description_ex :
  _ep_description serve_a None = "serve = a:Serve"
  ∧ _ep_description serve_a (Some 8%Z) = "serve    = a:Serve"
  ∧ _ep_description serve_a (Some 2%Z) = "serve = a:Serve"
  ∧ _ep_description serve_a (Some (-3)%Z) = "serve = a:Serve".
Proof. repeat split. Qed.

(* ===================================================================== *)
(** * Egg names                                                           *)
(* ===================================================================== *)

Lemma lower_str_map s : lower s = str_map lower_char s.
Proof. induction s as [|c s IH]; [done|]. simpl. by rewrite IH. Qed.

Lemma str_map_map f g s : str_map f (str_map g s) = str_map (λ c, f (g c)) s.
Proof. induction s as [|c s IH]; [done|]. simpl. by rewrite IH. Qed.

Lemma str_map_ext f g s : (∀ c, f c = g c) → str_map f s = str_map g s.
Proof.
  intros Hfg. induction s as [|c s IH]; [done|]. simpl. by rewrite Hfg, IH.
Qed.

Lemma str_map_id f s :
  str_forall (λ c, bool_decide (f c = c)) s = true → str_map f s = s.
Proof.
  induction s as [|c s IH]; [done|]. simpl.
  intros [Hc Hs]%andb_true_iff. apply bool_decide_eq_true in Hc.
  by rewrite Hc, IH.
Qed.

Lemma str_map_length f s : String.length (str_map f s) = String.length s.
Proof. induction s as [|c s IH]; [done|]. simpl. by rewrite IH. Qed.

Lemma str_forall_map P f s :
  str_forall P (str_map f s) = str_forall (λ c, P (f c)) s.
Proof. induction s as [|c s IH]; [done|]. simpl. by rewrite IH. Qed.

Lemma str_forall_all P s : (∀ c, P c = true) → str_forall P s = true.
Proof.
  intros HP. induction s as [|c s IH]; [done|]. simpl. by rewrite HP, IH.
Qed.

(** What [egg_name] does to one character. *)
Lemma egg_name_str_map s :
  egg_name s
  = str_map (λ c,
      let c := lower_char (if is_safe_char c then c else "_"%char) in
      let c := if bool_decide (c = "-"%char) then "_"%char else c in
      if bool_decide (c = " "%char) then "_"%char else c) s.
Proof.
  unfold egg_name, _to_filename, _safe_name, replace_char, sub_unsafe.
  by rewrite lower_str_map, !str_map_map.
Qed.

Lemma safe_name_str_map s :
  _safe_name s
  = str_map (λ c, lower_char (if is_safe_char c then c else "_"%char)) s.
Proof.
  unfold _safe_name, sub_unsafe. by rewrite lower_str_map, str_map_map.
Qed.

(** Closes a goal about every character by trying the 256 of them. *)
Ltac by_all_chars c :=
  destruct c as [[] [] [] [] [] [] [] []]; vm_compute; reflexivity.

(** X1.  Every character of an egg name is a lower-case letter, a digit,
    a dot or an underscore, and the egg name is as long as the
    distribution name. *)
Theorem egg_name_alphabet (dist_name : string) :
  str_forall is_egg_char (egg_name dist_name) = true
  ∧ String.length (egg_name dist_name) = String.length dist_name.
Proof.
  rewrite egg_name_str_map, str_forall_map, str_map_length. split; [|done].
  apply str_forall_all. intros c. by_all_chars c.
Qed.

(** X2.  [_to_filename] changes nothing in a safe name, so [egg_name] is
    [_safe_name]; and the egg name of an egg name is itself. *)
Theorem egg_name_safe_name (dist_name : string) :
  egg_name dist_name = _safe_name dist_name
  ∧ egg_name (egg_name dist_name) = egg_name dist_name.
Proof.
  split.
  - rewrite egg_name_str_map, safe_name_str_map. apply str_map_ext.
    intros c. by_all_chars c.
  - rewrite !egg_name_str_map, str_map_map. apply str_map_ext.
    intros c. by_all_chars c.
Qed.

(** X3.  ASCII distribution names that differ in case only have the
    same egg name; and so have names, ASCII or not, that differ in which
    of hyphen, blank and underscore they use.  (Outside ASCII
    [str.lower] can turn a character that [_safe_name] replaces into a
    letter that it keeps; the strings of the model stay below U+0100,
    where it does not.) *)
Theorem egg_name_insensitive (dist_name : string) :
  (str_forall is_ascii dist_name = true →
   egg_name (lower dist_name) = egg_name dist_name)
  ∧ egg_name (replace_char "-" "_" dist_name) = egg_name dist_name
  ∧ egg_name (replace_char " " "_" dist_name) = egg_name dist_name
  ∧ egg_name (replace_char "_" "-" dist_name) = egg_name dist_name.
Proof.
  rewrite lower_str_map. unfold replace_char.
  rewrite !egg_name_str_map, !str_map_map.
  split; [intros _|repeat split]; apply str_map_ext; intros c;
    by_all_chars c.
Qed.

Lemma egg_name_insensitive_witness :
  egg_name (lower "Paste-Script") = egg_name "Paste-Script".
Proof.
  apply (proj1 (egg_name_insensitive "Paste-Script")). reflexivity.
Defined.

(** X4.  [_to_filename] leaves no hyphen and no blank, keeps the length,
    does nothing more when applied again, and is the identity on a name
    that has neither. *)
Theorem to_filename_spec (name : string) :
  str_forall (λ c, negb (bool_decide (c = "-"%char))
                   && negb (bool_decide (c = " "%char)))
    (_to_filename name) = true
  ∧ String.length (_to_filename name) = String.length name
  ∧ _to_filename (_to_filename name) = _to_filename name
  ∧ (str_forall (λ c, negb (bool_decide (c = "-"%char))
                      && negb (bool_decide (c = " "%char))) name = true →
     _to_filename name = name).
Proof.
  unfold _to_filename, replace_char.
  rewrite !str_map_map, str_forall_map, str_map_length.
  split; [|split; [done|split]].
  - apply str_forall_all. intros c. by_all_chars c.
  - apply str_map_ext. intros c. by_all_chars c.
  - intros Hname. apply str_map_id.
    induction name as [|c name IH]; [done|]. simpl in *.
    apply andb_true_iff in Hname as [Hc Hname]. rewrite IH by done.
    rewrite andb_true_r. clear IH Hname. revert Hc.
    destruct c as [[] [] [] [] [] [] [] []]; vm_compute; congruence.
Qed.

(* ===================================================================== *)
(** * Metadata directory by name: [egg_info_dir]                          *)
(* ===================================================================== *)

Lemma endswith_refl p : endswith p p = true.
Proof. destruct p; cbn [endswith]; by rewrite bool_decide_eq_true_2. Qed.

Lemma endswith_app p a s : endswith p s = true → endswith p (a +:+ s) = true.
Proof.
  intros Hs. induction a as [|c a IH]; [done|].
  rewrite sapp_cons. simpl. rewrite IH. apply orb_true_r.
Qed.

Lemma endswith_join p a b : endswith p b = true → endswith p (join a b) = true.
Proof.
  intros Hb. unfold join.
  destruct (startswith _ b); [done|].
  destruct (_ || _); [by apply endswith_app|].
  apply endswith_app. simpl. rewrite Hb. apply orb_true_r.
Qed.

Lemma contains_refl s : contains s s.
Proof. exists "", "". by rewrite sapp_nil_r. Qed.

Lemma contains_app_l x s t : contains x s → contains x (s +:+ t).
Proof.
  intros (pre & post & ->). exists pre, (post +:+ t).
  by rewrite !sapp_assoc.
Qed.

Lemma contains_app_r x s t : contains x t → contains x (s +:+ t).
Proof.
  intros (pre & post & ->). exists (s +:+ pre), post.
  by rewrite !sapp_assoc.
Qed.

Lemma join_with_cons sep x y rest :
  join_with sep (x :: y :: rest) = x +:+ sep +:+ join_with sep (y :: rest).
Proof. done. Qed.

Lemma join_with_contains sep items x :
  x ∈ items → contains x (join_with sep items).
Proof.
  induction items as [|y [|z rest] IH].
  - by intros ?%elem_of_nil.
  - intros ->%list_elem_of_singleton. apply contains_refl.
  - rewrite join_with_cons. intros [->|Hx]%elem_of_cons.
    + apply contains_app_l, contains_refl.
    + by apply contains_app_r, contains_app_r, IH.
Qed.

Section EggInfoDirFacts.

Variable listdir : string → option (list string).
Variable exists_ : string → bool.

Lemma egg_info_dir_loop_first base_dir dist_name all before ext after :
  Forall (λ e, exists_ (candidate base_dir dist_name e) = false) before →
  exists_ (candidate base_dir dist_name ext) = true →
  egg_info_dir_loop exists_ base_dir dist_name all (before ++ ext :: after)
  = Return (candidate base_dir dist_name ext).
Proof.
  intros Hbefore Hext. revert all.
  induction Hbefore as [|e before He _ IH]; intros all; simpl.
  - fold (candidate base_dir dist_name ext). by rewrite Hext.
  - fold (candidate base_dir dist_name e). rewrite He. apply IH.
Qed.

Lemma egg_info_dir_loop_none base_dir dist_name all exts :
  Forall (λ e, exists_ (candidate base_dir dist_name e) = false) exts →
  egg_info_dir_loop exists_ base_dir dist_name all exts
  = Raise (OSError (no_egg_info_message
                      (all ++ (candidate base_dir dist_name <$> exts)))).
Proof.
  intros Hexts. revert all.
  induction Hexts as [|e exts He _ IH]; intros all; simpl.
  - by rewrite app_nil_r.
  - fold (candidate base_dir dist_name e). rewrite He, IH.
    by rewrite <- app_assoc.
Qed.

Lemma egg_info_dir_loop_Return base_dir dist_name all exts p :
  egg_info_dir_loop exists_ base_dir dist_name all exts = Return p →
  ∃ before ext after,
    exts = before ++ ext :: after
    ∧ Forall (λ e, exists_ (candidate base_dir dist_name e) = false) before
    ∧ exists_ (candidate base_dir dist_name ext) = true
    ∧ p = candidate base_dir dist_name ext.
Proof.
  revert all. induction exts as [|e exts IH]; intros all; simpl; [done|].
  fold (candidate base_dir dist_name e).
  destruct (exists_ (candidate base_dir dist_name e)) eqn:He.
  - intros [= <-]. by exists [], e, exts.
  - intros (before & ext & after & -> & Hb & Hext & ->)%IH.
    exists (e :: before), ext, after. split_and!; [done| |done..].
    by constructor.
Qed.

End EggInfoDirFacts.

(** X5.  [egg_info_dir] returns a path exactly when the directory can be
    listed and some entry of ['.'] followed by the listing gives a path
    that exists; the path returned is the one of the first such entry,
    and it ends in [.egg-info]. *)
Theorem egg_info_dir_first_existing
    (listdir : string → option (list string)) (exists_ : string → bool)
    (base_dir dist_name p : string) :
  egg_info_dir listdir exists_ base_dir dist_name = Return p
  ↔ ∃ filenames before dir_extension after,
      listdir base_dir = Some filenames
      ∧ "." :: filenames = before ++ dir_extension :: after
      ∧ Forall (λ e, exists_ (candidate base_dir dist_name e) = false) before
      ∧ exists_ (candidate base_dir dist_name dir_extension) = true
      ∧ p = candidate base_dir dist_name dir_extension
      ∧ endswith egg_info_suffix p = true.
Proof.
  unfold egg_info_dir. split.
  - destruct (listdir base_dir) as [filenames|]; [|done].
    intros (before & ext & after & Hsplit & Hb & Hext & ->)
      %egg_info_dir_loop_Return.
    exists filenames, before, ext, after. split_and!; try done.
    apply endswith_join, endswith_app, endswith_refl.
  - intros (filenames & before & ext & after & -> & -> & Hb & Hext & -> & _).
    by apply egg_info_dir_loop_first.
Qed.

(** X6.  When the directory can be listed and none of the paths tried
    exists, [egg_info_dir] raises [IOError]; its message lists the paths
    tried, one for ['.'] and one for each entry of the listing, in that
    order, so every one of them can be read in it. *)
Theorem egg_info_dir_not_found
    (listdir : string → option (list string)) (exists_ : string → bool)
    (base_dir dist_name : string) (filenames : list string) :
  listdir base_dir = Some filenames →
  Forall (λ e, exists_ (candidate base_dir dist_name e) = false)
    ("." :: filenames) →
  egg_info_dir listdir exists_ base_dir dist_name
  = Raise (OSError ("No egg-info directory found (looked in "
                    +:+ join_with ", "
                          (candidate base_dir dist_name <$> "." :: filenames)
                    +:+ ")"))
  ∧ ∀ e, e ∈ "." :: filenames →
      ∃ message,
        egg_info_dir listdir exists_ base_dir dist_name
        = Raise (OSError message)
        ∧ contains (candidate base_dir dist_name e) message.
Proof.
  intros Hlist Hnone. unfold egg_info_dir. rewrite Hlist.
  rewrite (egg_info_dir_loop_none _ _ _ [] _ Hnone). split; [done|].
  intros e He. eexists. split; [done|].
  unfold no_egg_info_message. apply contains_app_r, contains_app_l.
  apply join_with_contains. rewrite app_nil_l. by apply list_elem_of_fmap_2.
Qed.

Lemma egg_info_dir_not_found_witness :
  egg_info_dir (λ d, if bool_decide (d = "base") then Some ["src"] else None)
    (λ _, false) "base" "Foo-Bar"
  = Raise (OSError ("No egg-info directory found (looked in "
                    +:+ "base/./foo_bar.egg-info, base/src/foo_bar.egg-info"
                    +:+ ")")).
Proof.
  refine (proj1 (egg_info_dir_not_found
           (λ d, if bool_decide (d = "base") then Some ["src"] else None)
           (λ _, false) "base" "Foo-Bar" ["src"] _ _)).
  - reflexivity.
  - repeat constructor.
Defined.

(* ===================================================================== *)
(** * Locator: what is found                                              *)
(* ===================================================================== *)

Section LocatorFound.

Variable listdir : string → option (list string).
Variable isdir : string → bool.

Lemma find_match_app dir before rest :
  find_match isdir dir before = None →
  find_match isdir dir (before ++ rest) = find_match isdir dir rest.
Proof.
  induction before as [|fn before IH]; [done|]. simpl.
  destruct (_ && _); [done|]. apply IH.
Qed.

Lemma find_match_Some dir filenames p :
  find_match isdir dir filenames = Some p
  ↔ ∃ before fn after,
      filenames = before ++ fn :: after
      ∧ find_match isdir dir before = None
      ∧ endswith egg_info_suffix fn = true
      ∧ isdir (join dir fn) = true
      ∧ p = join dir fn.
Proof.
  split.
  - induction filenames as [|fn rest IH]; [done|]. simpl.
    destruct (endswith egg_info_suffix fn && isdir (join dir fn)) eqn:E.
    + intros [= <-]. apply andb_true_iff in E as [E1 E2].
      by exists [], fn, rest.
    + intros (before & fn' & after & -> & Hb & E1 & E2 & ->)%IH.
      exists (fn :: before), fn', after. split_and!; try done.
      simpl. by rewrite E.
  - intros (before & fn & after & -> & Hb & E1 & E2 & ->).
    rewrite find_match_app by done. simpl. by rewrite E1, E2.
Qed.

Lemma find_loop_found fuel dir d p :
  visits listdir isdir dir d →
  find_loop listdir isdir fuel d = Done (Some p) →
  ∃ d' filenames,
    visits listdir isdir dir d'
    ∧ listdir d' = Some filenames
    ∧ find_match isdir d' filenames = Some p.
Proof.
  revert d. induction fuel as [|fuel IH]; intros d Hv; [done|]. simpl.
  destruct (listdir d) as [filenames|] eqn:Hls; [|done].
  destruct (find_match isdir d filenames) as [found|] eqn:Hm.
  - intros [= ->]. by exists d, filenames.
  - case_bool_decide as Hp; [done|]. apply IH.
    by apply (visits_parent _ _ _ d filenames).
Qed.

Lemma find_egg_info_dir_at dir d filenames p :
  visits listdir isdir dir d →
  listdir d = Some filenames →
  find_match isdir d filenames = Some p →
  find_egg_info_dir listdir isdir dir = Done (Some p).
Proof.
  intros Hv Hls Hm. rewrite (visits_same _ _ _ _ Hv).
  unfold find_egg_info_dir. simpl. by rewrite Hls, Hm.
Qed.

End LocatorFound.

(** X7.  [find_egg_info_dir] returns a path exactly when the walk from
    [dir] upwards reaches a directory whose listing has an entry that
    ends in [.egg-info] and is a directory; the path is that of the
    first such entry of the first such directory.  So what it returns is
    a directory whose name ends in [.egg-info]. *)
Theorem find_egg_info_dir_nearest
    (listdir : string → option (list string)) (isdir : string → bool)
    (dir p : string) :
  (find_egg_info_dir listdir isdir dir = Done (Some p)
   ↔ ∃ d before fn after,
       visits listdir isdir dir d
       ∧ listdir d = Some (before ++ fn :: after)
       ∧ find_match isdir d before = None
       ∧ endswith egg_info_suffix fn = true
       ∧ isdir (join d fn) = true
       ∧ p = join d fn)
  ∧ (find_egg_info_dir listdir isdir dir = Done (Some p) →
     isdir p = true ∧ endswith egg_info_suffix p = true).
Proof.
  assert (find_egg_info_dir listdir isdir dir = Done (Some p)
          → ∃ d before fn after,
              visits listdir isdir dir d
              ∧ listdir d = Some (before ++ fn :: after)
              ∧ find_match isdir d before = None
              ∧ endswith egg_info_suffix fn = true
              ∧ isdir (join d fn) = true
              ∧ p = join d fn) as Hfound.
  { intros Hfind.
    destruct (find_loop_found listdir isdir _ dir dir p (visits_start _ _ _)
                Hfind) as (d & filenames & Hv & Hls & Hm).
    apply find_match_Some in Hm
      as (before & fn & after & -> & Hb & E1 & E2 & ->).
    by exists d, before, fn, after. }
  split; [split; [done|]|].
  - intros (d & before & fn & after & Hv & Hls & Hb & E1 & E2 & ->).
    apply (find_egg_info_dir_at _ _ _ d (before ++ fn :: after)); try done.
    apply find_match_Some. by exists before, fn, after.
  - intros (d & before & fn & after & _ & _ & _ & E1 & E2 & ->)%Hfound.
    split; [done|]. by apply endswith_join.
Qed.

(** X8.  The directory [egg_info_dir] looks for is one
    [find_egg_info_dir] finds: when the listing of [base_dir/ext] holds
    [egg_name(dist_name) + '.egg-info'] as a directory, with no match
    before it, the walk started there returns the path [egg_info_dir]
    tries for [ext]. *)
Theorem find_egg_info_dir_egg_name
    (listdir : string → option (list string)) (isdir : string → bool)
    (base_dir dist_name ext : string) (before after : list string) :
  listdir (join base_dir ext)
  = Some (before ++ (egg_name dist_name +:+ ".egg-info") :: after) →
  find_match isdir (join base_dir ext) before = None →
  isdir (candidate base_dir dist_name ext) = true →
  find_egg_info_dir listdir isdir (join base_dir ext)
  = Done (Some (candidate base_dir dist_name ext)).
Proof.
  intros Hls Hb Hdir.
  apply (find_egg_info_dir_at _ _ _ (join base_dir ext) _ _
           (visits_start _ _ _) Hls).
  apply find_match_Some. eexists before, _, after. split_and!; try done.
  apply endswith_app, endswith_refl.
Qed.

Lemma find_egg_info_dir_egg_name_witness :
  find_egg_info_dir
    (λ d, if bool_decide (d = "base/src")
          then Some ["notes.txt"; "foo_bar.egg-info"] else None)
    (λ p, bool_decide (p = "base/src/foo_bar.egg-info"))
    "base/src"
  = Done (Some "base/src/foo_bar.egg-info").
Proof.
  apply (find_egg_info_dir_egg_name
           (λ d, if bool_decide (d = "base/src")
                 then Some ["notes.txt"; "foo_bar.egg-info"] else None)
           (λ p, bool_decide (p = "base/src/foo_bar.egg-info"))
           "base" "Foo-Bar" "src" ["notes.txt"] []); reflexivity.
Defined.

(* ===================================================================== *)
(** * Global commands and entry point groups                              *)
(* ===================================================================== *)

Lemma load_global_commands_snoc eps ep :
  load_global_commands (eps ++ [ep])
  = if bool_decide (ep_group ep = global_command_group)
    then <[ep_name ep := ep]> (load_global_commands eps)
    else load_global_commands eps.
Proof.
  unfold load_global_commands, select_group. rewrite filter_app.
  case_bool_decide as Hg.
  - rewrite (filter_cons_True _ ep), filter_nil by done.
    by rewrite foldl_app.
  - rewrite (filter_cons_False _ ep), filter_nil by done.
    by rewrite app_nil_r.
Qed.

Lemma load_global_commands_lookup eps name :
  load_global_commands eps !! name
  = last (filter (λ ep, ep_group ep = global_command_group
                        ∧ ep_name ep = name) eps).
Proof.
  induction eps as [|ep eps IH] using rev_ind; [done|].
  rewrite load_global_commands_snoc, filter_app.
  case_bool_decide as Hg.
  - destruct (decide (ep_name ep = name)) as [Hn|Hn].
    + rewrite (filter_cons_True _ ep), filter_nil by done.
      rewrite last_snoc. subst name. by rewrite lookup_insert_eq.
    + rewrite (filter_cons_False _ ep), filter_nil by (intros [??]; done).
      rewrite app_nil_r, lookup_insert_ne by done. apply IH.
  - rewrite (filter_cons_False _ ep), filter_nil by (intros [??]; done).
    rewrite app_nil_r. apply IH.
Qed.

(** X9.  The mapping [load_global_commands] returns gives, for every
    name, the last installed entry point of that name in the group
    [paste.global_paster_command]: a name is a key exactly when such an
    entry point exists, and no entry point it holds is one that
    [load_commands_from_plugins] holds, whatever the plugins. *)
Theorem load_global_commands_spec (eps : list EntryPoint) :
  (∀ name,
      load_global_commands eps !! name
      = last (filter (λ ep, ep_group ep = "paste.global_paster_command"
                            ∧ ep_name ep = name) eps))
  ∧ (∀ name,
        is_Some (load_global_commands eps !! name)
        ↔ ∃ ep, ep ∈ eps ∧ ep_group ep = "paste.global_paster_command"
                ∧ ep_name ep = name)
  ∧ (∀ plugins name name' ep,
        load_global_commands eps !! name = Some ep →
        load_commands_from_plugins plugins !! name' ≠ Some ep).
Proof.
  split; [|split].
  - apply load_global_commands_lookup.
  - intros name. rewrite load_global_commands_lookup. split.
    + intros [ep Hep].
      apply last_Some_elem_of, list_elem_of_filter in Hep as [[Hg Hn] Hin].
      by exists ep.
    + intros (ep & Hin & Hg & Hn).
      assert (ep ∈ filter (λ ep, ep_group ep = global_command_group
                                 ∧ ep_name ep = name) eps) as Hf
        by by apply list_elem_of_filter.
      destruct (filter _ eps) as [|x l] using rev_ind.
      * by apply elem_of_nil in Hf.
      * rewrite last_snoc. by eexists.
  - intros plugins name name' ep. rewrite load_global_commands_lookup.
    intros [[Hg _] _]%last_Some_elem_of%list_elem_of_filter.
    rewrite load_commands_lookup.
    intros [[Hg' _] _]%last_Some_elem_of%list_elem_of_filter.
    by rewrite Hg in Hg'.
Qed.

Lemma load_commands_app l1 l2 :
  load_commands_from_plugins (l1 ++ l2)
  = load_commands_from_plugins l2 ∪ load_commands_from_plugins l1.
Proof.
  apply map_eq. intros name.
  rewrite lookup_union, !load_commands_lookup.
  unfold readable_entry_points. rewrite bind_app, filter_app.
  destruct (filter (is_command name) (l2 ≫= _)) as [|ep l]
    using rev_ind.
  - rewrite app_nil_r. simpl. by rewrite (left_id_L None (∪)).
  - rewrite app_assoc, !last_snoc. simpl. by rewrite union_Some_l.
Qed.

(** X10.  The commands of a list of plugins made of two parts are the
    commands of the second part, completed by those of the first part
    whose names the second does not use; so the names are those of both
    parts. *)
Theorem load_commands_from_plugins_app (l1 l2 : list Distribution) :
  load_commands_from_plugins (l1 ++ l2)
  = load_commands_from_plugins l2 ∪ load_commands_from_plugins l1
  ∧ dom (load_commands_from_plugins (l1 ++ l2))
    = dom (load_commands_from_plugins l1)
      ∪ dom (load_commands_from_plugins l2).
Proof.
  rewrite load_commands_app, dom_union_L. split; [done|].
  apply (comm_L (∪)).
Qed.

(** ** Groups *)

Lemma dict_set_none_elem eps_dict group x :
  x ∈ dict_set_none eps_dict group ↔ x ∈ eps_dict ∨ x = group.
Proof.
  unfold dict_set_none. case_bool_decide as Hin.
  - split; [by left|]. by intros [?| ->].
  - rewrite elem_of_app, list_elem_of_singleton. done.
Qed.

Lemma dict_set_none_NoDup eps_dict group :
  NoDup eps_dict → NoDup (dict_set_none eps_dict group).
Proof.
  intros Hnd. unfold dict_set_none. case_bool_decide as Hin; [done|].
  apply NoDup_app. split_and!; [done| |apply NoDup_singleton].
  by intros x Hx ->%list_elem_of_singleton.
Qed.

Lemma dict_set_none_idemp eps_dict group :
  dict_set_none (dict_set_none eps_dict group) group
  = dict_set_none eps_dict group.
Proof.
  unfold dict_set_none at 1. rewrite bool_decide_eq_true_2; [done|].
  apply dict_set_none_elem. by right.
Qed.

(** The inner loop of [get_groups_by_pattern] over the entry points of
    one group. *)
Lemma groups_inner pattern group (selected : list EntryPoint) eps_dict :
  foldl (λ eps_dict (ep : EntryPoint),
           match pattern with
           | Some search => if negb (search group) then eps_dict
                            else dict_set_none eps_dict group
           | None => if startswith description_prefix group then eps_dict
                     else dict_set_none eps_dict group
           end) eps_dict selected
  = if group_kept pattern group && bool_decide (selected ≠ [])
    then dict_set_none eps_dict group else eps_dict.
Proof.
  induction selected as [|ep selected IH] using rev_ind.
  - by rewrite andb_false_r.
  - rewrite foldl_app, IH. cbn [foldl].
    rewrite (bool_decide_eq_true_2 (selected ++ [ep] ≠ []))
      by (by destruct selected).
    rewrite andb_true_r. unfold group_kept.
    destruct pattern as [search|].
    + destruct (search group); simpl; [|done].
      destruct (bool_decide (selected ≠ [])); [apply dict_set_none_idemp|done].
    + destruct (startswith description_prefix group); simpl; [done|].
      destruct (bool_decide (selected ≠ [])); [apply dict_set_none_idemp|done].
Qed.

Lemma get_groups_by_pattern_dict pattern eps groups :
  get_groups_by_pattern pattern eps groups
  = sorted (groups_dict pattern eps [] groups).
Proof.
  unfold get_groups_by_pattern, groups_dict. f_equal.
  generalize (@nil string).
  induction groups as [|group groups IH]; intros eps_dict; [done|].
  simpl. by rewrite groups_inner, IH.
Qed.

Lemma select_group_nonempty group eps :
  select_group group eps ≠ [] ↔ ∃ ep, ep ∈ eps ∧ ep_group ep = group.
Proof.
  unfold select_group. split.
  - destruct (filter _ eps) as [|ep l] eqn:E; [done|]. intros _.
    assert (ep ∈ filter (λ ep, ep_group ep = group) eps) as Hin
      by (rewrite E; left).
    apply list_elem_of_filter in Hin as [??]. by exists ep.
  - intros (ep & Hin & Hg) E.
    assert (ep ∈ filter (λ ep, ep_group ep = group) eps) as Hf
      by by apply list_elem_of_filter.
    rewrite E in Hf. by apply elem_of_nil in Hf.
Qed.

Lemma groups_dict_elem pattern eps eps_dict groups x :
  x ∈ groups_dict pattern eps eps_dict groups
  ↔ x ∈ eps_dict
    ∨ (x ∈ groups ∧ group_kept pattern x = true
       ∧ ∃ ep, ep ∈ eps ∧ ep_group ep = x).
Proof.
  revert eps_dict. induction groups as [|group groups IH]; intros eps_dict.
  - simpl. split; [by left|]. intros [?|[?%elem_of_nil _]]; done.
  - simpl. rewrite IH. clear IH.
    destruct (group_kept pattern group) eqn:Hk; simpl.
    + case_bool_decide as Hsel.
      * rewrite dict_set_none_elem. apply select_group_nonempty in Hsel.
        split.
        -- intros [[?| ->]|(? & ? & ?)]; [by left| |].
           ++ right. split_and!; [left|done..].
           ++ right. split_and!; [by right|done..].
        -- intros [?|([->|?]%elem_of_cons & ? & ?)];
             [by left; left|by left; right|by right].
      * split.
        -- intros [?|(? & ? & ?)]; [by left|].
           right. split_and!; [by right|done..].
        -- intros [?|([->|?]%elem_of_cons & ? & Hex)];
             [by left| |by right].
           by apply select_group_nonempty in Hex.
    + split.
      * intros [?|(? & ? & ?)]; [by left|].
        right. split_and!; [by right|done..].
      * intros [?|([->|?]%elem_of_cons & Hk' & ?)];
          [by left| |by right]. congruence.
Qed.

Lemma groups_dict_NoDup pattern eps eps_dict groups :
  NoDup eps_dict → NoDup (groups_dict pattern eps eps_dict groups).
Proof.
  revert eps_dict. induction groups as [|group groups IH]; intros eps_dict Hnd;
    [done|].
  simpl. apply IH. destruct (_ && _); [|done].
  by apply dict_set_none_NoDup.
Qed.

Lemma sorted_elem keys x : x ∈ sorted keys ↔ x ∈ keys.
Proof. unfold sorted. by rewrite merge_sort_Permutation. Qed.

Lemma get_groups_by_pattern_elem pattern eps groups g :
  g ∈ get_groups_by_pattern pattern eps groups
  ↔ g ∈ groups ∧ group_kept pattern g = true
    ∧ ∃ ep, ep ∈ eps ∧ ep_group ep = g.
Proof.
  rewrite get_groups_by_pattern_dict, sorted_elem, groups_dict_elem.
  split; [|by right]. by intros [?%elem_of_nil|?].
Qed.

Lemma get_groups_by_pattern_NoDup pattern eps groups :
  NoDup (get_groups_by_pattern pattern eps groups).
Proof.
  rewrite get_groups_by_pattern_dict. unfold sorted.
  rewrite merge_sort_Permutation. apply groups_dict_NoDup, NoDup_nil_2.
Qed.

Lemma get_groups_by_pattern_Sorted pattern eps groups :
  Sorted String.le (get_groups_by_pattern pattern eps groups).
Proof.
  rewrite get_groups_by_pattern_dict. apply (Sorted_merge_sort String.le).
Qed.

(** X11.  [get_groups_by_pattern] returns, in ascending order and
    without repetition, the groups that have an entry point and pass the
    filter: with a pattern, the groups the pattern matches; without one,
    the groups that do not start with [paste.description.].  When
    [groups] holds the groups of the entry points, as
    [entry_points().groups] does, these are the groups of the entry
    points that pass the filter. *)
Theorem get_groups_by_pattern_spec
    (pattern : option (string → bool)) (eps : list EntryPoint)
    (groups : list string) :
  Sorted String.le (get_groups_by_pattern pattern eps groups)
  ∧ NoDup (get_groups_by_pattern pattern eps groups)
  ∧ (∀ g, g ∈ get_groups_by_pattern pattern eps groups
          ↔ g ∈ groups
            ∧ (∃ ep, ep ∈ eps ∧ ep_group ep = g)
            ∧ match pattern with
              | Some search => search g = true
              | None => startswith "paste.description." g = false
              end)
  ∧ ((∀ g, g ∈ groups ↔ ∃ ep, ep ∈ eps ∧ ep_group ep = g) →
     ∀ g, g ∈ get_groups_by_pattern pattern eps groups
          ↔ (∃ ep, ep ∈ eps ∧ ep_group ep = g)
            ∧ match pattern with
              | Some search => search g = true
              | None => startswith "paste.description." g = false
              end).
Proof.
  assert (∀ g, group_kept pattern g = true
               ↔ match pattern with
                 | Some search => search g = true
                 | None => startswith "paste.description." g = false
                 end) as Hkept.
  { intros g. unfold group_kept. destruct pattern as [search|]; [done|].
    apply negb_true_iff. }
  split; [apply get_groups_by_pattern_Sorted|].
  split; [apply get_groups_by_pattern_NoDup|]. split.
  - intros g. rewrite get_groups_by_pattern_elem, Hkept. tauto.
  - intros Hgroups g. rewrite get_groups_by_pattern_elem, Hkept, Hgroups.
    tauto.
Qed.

(** X12.  The list [get_groups_by_pattern] returns does not depend on
    the order in which the groups and the entry points are met, nor on
    how often: two runs over the same groups and the same entry points
    return the same list. *)
Theorem get_groups_by_pattern_order
    (pattern : option (string → bool)) (eps eps' : list EntryPoint)
    (groups groups' : list string) :
  (∀ g, g ∈ groups ↔ g ∈ groups') →
  (∀ ep, ep ∈ eps ↔ ep ∈ eps') →
  get_groups_by_pattern pattern eps groups
  = get_groups_by_pattern pattern eps' groups'.
Proof.
  intros Hgroups Heps.
  apply (Sorted_unique String.le);
    [apply get_groups_by_pattern_Sorted..|].
  apply NoDup_Permutation; [apply get_groups_by_pattern_NoDup..|].
  intros g. rewrite !get_groups_by_pattern_elem, Hgroups.
  by setoid_rewrite Heps.
Qed.

Lemma get_groups_by_pattern_order_witness :
  get_groups_by_pattern None demo_eps ["paste.paster_command"; "console_scripts"]
  = get_groups_by_pattern None (serve_c :: demo_eps)
      ["console_scripts"; "paste.paster_command"; "console_scripts"].
Proof.
  apply (get_groups_by_pattern_order None demo_eps (serve_c :: demo_eps)
           ["paste.paster_command"; "console_scripts"]
           ["console_scripts"; "paste.paster_command"; "console_scripts"]).
  - intros g. rewrite !elem_of_cons, !elem_of_nil. tauto.
  - intros ep. unfold demo_eps. rewrite !elem_of_cons, !elem_of_nil. tauto.
Defined.

(* ===================================================================== *)
(** * The names [parse_lines] returns                                     *)
(* ===================================================================== *)

Lemma plain_line_no_LF l :
  plain_line l = true → str_forall (λ c, negb (is_LF c)) l = true.
Proof.
  apply str_forall_impl. intros c Hc. apply negb_true_iff.
  destruct (is_LF c) eqn:E; [|done].
  apply is_LF_linebreak in E. by rewrite E in Hc.
Qed.

Lemma parse_lines_elem data l :
  l ∈ parse_lines data →
  clean_line l = true ∧ plain_line l = true ∧ is_comment l = false.
Proof.
  rewrite parse_lines_stripped. unfold stripped.
  rewrite !list_elem_of_filter, list_elem_of_fmap.
  intros (Hc & Hne & p & -> & Hp).
  assert (plain_line (strip p) = true) as Hplain.
  { apply str_forall_strip.
    by apply (proj1 (Forall_forall _ _) (split_on_pieces is_linebreak data)). }
  split_and!; [|done|].
  - apply clean_line_spec. split_and!.
    + by apply Is_true_true_1.
    + apply strip_idemp.
    + by apply plain_line_no_LF.
  - apply negb_true_iff. by apply Is_true_true_1.
Qed.

(* ===================================================================== *)
(** * Resolver: the names found are the names reached                     *)
(* ===================================================================== *)

Section ResolverReach.

Variable str_of_error : string → string.
Variable reg : gmap string Distribution.
Variable start : list string.

Lemma reach_sound_step plugin_list plugin found dist :
  reg !! plugin = Some dist →
  reach_sound reg start (plugin_list ++ [plugin]) found →
  reach_sound reg start
    (plugin_list ++ filter (.∉ found ++ [plugin]) (manifest_entries dist))
    (found ++ [plugin]).
Proof.
  intros Hreg Hs x.
  assert (reachable reg start plugin) as Hp.
  { apply Hs. right. apply elem_of_app. right. by left. }
  rewrite !elem_of_app, list_elem_of_singleton.
  intros [[Hx| ->]|[Hx|[_ Hx]%list_elem_of_filter]]; [|done| |].
  - apply Hs. by left.
  - apply Hs. right. apply elem_of_app. by left.
  - by apply (reachable_step _ _ plugin dist).
Qed.

Lemma reach_closed_step plugin_list plugin found dist :
  reg !! plugin = Some dist →
  reach_closed reg start (plugin_list ++ [plugin]) found →
  reach_closed reg start
    (plugin_list ++ filter (.∉ found ++ [plugin]) (manifest_entries dist))
    (found ++ [plugin]).
Proof.
  intros Hreg [Hstart Hclosed].
  assert (∀ x, x ∈ found ∨ x ∈ plugin_list ++ [plugin] →
               x ∈ found ++ [plugin]
               ∨ x ∈ plugin_list
                     ++ filter (.∉ found ++ [plugin]) (manifest_entries dist))
    as Hmove.
  { intros x. rewrite !elem_of_app, list_elem_of_singleton.
    intros [?|[?| ->]]; [by left; left|by right; left|by left; right]. }
  split.
  - intros x Hx. by apply Hmove, Hstart.
  - intros n d x [Hn|Hn]%elem_of_app Hd Hx.
    + by apply Hmove, (Hclosed n d).
    + apply list_elem_of_singleton in Hn as ->.
      assert (d = dist) as -> by congruence.
      destruct (decide (x ∈ found ++ [plugin])) as [Hin|Hout]; [by left|].
      right. apply elem_of_app. right. by apply list_elem_of_filter.
Qed.

Lemma resolve_loop_sound fuel plugin_list found result :
  reach_sound reg start plugin_list found →
  resolve_loop str_of_error fuel reg plugin_list found = Done result →
  ∀ x, x ∈ result → reachable reg start x.
Proof.
  revert plugin_list found.
  induction fuel as [|fuel IH]; intros plugin_list found Hs; [done|].
  destruct plugin_list as [|plugin plugin_list _] using rev_ind.
  { intros [= <-] x Hx. apply Hs. by left. }
  destruct (reg !! plugin) as [dist|] eqn:Hreg.
  - rewrite (resolve_loop_step _ _ _ _ _ _ dist) by done.
    apply IH. by apply reach_sound_step.
  - by rewrite resolve_loop_raise.
Qed.

Lemma resolve_loop_closed fuel plugin_list found result :
  reach_closed reg start plugin_list found →
  resolve_loop str_of_error fuel reg plugin_list found = Done result →
  ∀ x, reachable reg start x → x ∈ result.
Proof.
  revert plugin_list found.
  induction fuel as [|fuel IH]; intros plugin_list found Hc; [done|].
  destruct plugin_list as [|plugin plugin_list _] using rev_ind.
  { intros [= <-] x. destruct Hc as [Hstart Hclosed].
    induction 1 as [x Hx|n dist x _ IHn Hn Hx].
    - by destruct (Hstart x Hx) as [?|?%elem_of_nil].
    - by destruct (Hclosed n dist x IHn Hn Hx) as [?|?%elem_of_nil]. }
  destruct (reg !! plugin) as [dist|] eqn:Hreg.
  - rewrite (resolve_loop_step _ _ _ _ _ _ dist) by done.
    apply IH. by apply reach_closed_step.
  - by rewrite resolve_loop_raise.
Qed.

Lemma resolve_loop_raised_reached fuel plugin_list found e :
  reach_sound reg start plugin_list found →
  resolve_loop str_of_error fuel reg plugin_list found = Raised e →
  ∃ missing,
    reachable reg start missing
    ∧ reg !! missing = None
    ∧ e = if nonempty missing
          then PackageNotFoundError
                 (not_found_message str_of_error missing missing)
          else ValueError name_required.
Proof.
  revert plugin_list found.
  induction fuel as [|fuel IH]; intros plugin_list found Hs; [done|].
  destruct plugin_list as [|plugin plugin_list _] using rev_ind; [done|].
  destruct (reg !! plugin) as [dist|] eqn:Hreg.
  - rewrite (resolve_loop_step _ _ _ _ _ _ dist) by done.
    apply IH. by apply reach_sound_step.
  - rewrite resolve_loop_raise by done. intros [= <-]. exists plugin.
    split; [|done]. apply Hs. right. apply elem_of_app. right. by left.
Qed.

(** A manifest entry is never the empty name: the empty name is
    reached only when the list holds it. *)
Lemma manifest_entries_nonempty dist x :
  x ∈ manifest_entries dist → nonempty x = true.
Proof.
  unfold manifest_entries. destruct (truthy _); [|by intros ?%elem_of_nil].
  destruct (read_text_plugins dist) as [data| |];
    try by intros ?%elem_of_nil.
  destruct (nonempty data); [|by intros ?%elem_of_nil].
  intros (Hclean & _)%parse_lines_elem.
  by apply clean_line_spec in Hclean as (? & _).
Qed.

Lemma reachable_empty_name x :
  reachable reg start x → nonempty x = false → x ∈ start.
Proof.
  destruct 1 as [x Hx|n dist x _ _ Hx]; [done|].
  apply manifest_entries_nonempty in Hx. congruence.
Qed.

Lemma reach_sound_start : reach_sound reg start start [].
Proof. intros x [?%elem_of_nil|?]; [done|]. by apply reachable_start. Qed.

Lemma reach_closed_start : reach_closed reg start start [].
Proof.
  split; [by right|]. by intros n dist x ?%elem_of_nil.
Qed.

End ResolverReach.

(** X13.  On every registry and every list, cycles and repeated names
    included, [resolve_plugins] ends, in one of three ways.  It returns
    the distributions of the names found, and the names found are
    exactly the names reached from the list through the manifests.  Or
    it raises [PackageNotFoundError], rewritten, for a reached non-empty
    name that is not registered.  Or the list holds the empty name, and
    it raises the [ValueError] of [importlib.metadata], as it is. *)
Theorem resolve_plugins_reachable
    (str_of_error : string → string) (reg : gmap string Distribution)
    (plugin_list : list string) :
  ∃ fuel0, ∀ fuel, fuel0 ≤ fuel →
    (∃ found dists,
        resolve_loop str_of_error fuel reg plugin_list [] = Done found
        ∧ resolve_plugins str_of_error fuel reg plugin_list = Done dists
        ∧ Forall2 (λ name dist, reg !! name = Some dist) found dists
        ∧ ∀ x, x ∈ found ↔ reachable reg plugin_list x)
    ∨ (∃ missing,
        reachable reg plugin_list missing
        ∧ nonempty missing = true
        ∧ reg !! missing = None
        ∧ resolve_plugins str_of_error fuel reg plugin_list
          = Raised (PackageNotFoundError
                      (not_found_message str_of_error missing missing)))
    ∨ ("" ∈ plugin_list
       ∧ reg !! "" = None
       ∧ resolve_plugins str_of_error fuel reg plugin_list
         = Raised (ValueError "A distribution name is required.")).
Proof.
  destruct (resolve_plugins_total str_of_error reg plugin_list)
    as [fuel0 Htotal].
  exists fuel0. intros fuel Hle.
  destruct (Htotal fuel Hle) as [(found & dists & Hloop & Hres & Hall)
                                |(e & Hloop & Hres)].
  - left. exists found, dists. split_and!; try done.
    intros x. split.
    + by apply (resolve_loop_sound _ _ _ _ _ _ _
                  (reach_sound_start _ _) Hloop).
    + by apply (resolve_loop_closed _ _ _ _ _ _ _
                  (reach_closed_start _ _) Hloop).
  - right.
    apply (resolve_loop_raised_reached _ _ _ _ _ _ _
             (reach_sound_start _ _)) in Hloop
      as (missing & Hreach & Hnone & ->).
    destruct (nonempty missing) eqn:Hne.
    + left. by exists missing.
    + right. pose proof (reachable_empty_name _ _ _ Hreach Hne) as Hin.
      destruct missing; [done|discriminate].
Qed.

(** X14.  [resolve_plugins] returns a list of distributions exactly when
    every name reached from the list through the manifests is
    registered. *)
Theorem resolve_plugins_succeeds_iff
    (str_of_error : string → string) (reg : gmap string Distribution)
    (plugin_list : list string) :
  (∃ fuel dists,
      resolve_plugins str_of_error fuel reg plugin_list = Done dists)
  ↔ ∀ x, reachable reg plugin_list x → is_Some (reg !! x).
Proof.
  split.
  - intros (fuel & dists & Hres) x Hx.
    unfold resolve_plugins in Hres.
    destruct (resolve_loop str_of_error fuel reg plugin_list [])
      as [found| |] eqn:Hloop; [|done..].
    assert (x ∈ found) as Hin
      by by apply (resolve_loop_closed _ _ _ _ _ _ _
                     (reach_closed_start _ _) Hloop).
    apply resolve_loop_registered in Hloop; [|done].
    by apply (proj1 (Forall_forall _ _) Hloop).
  - intros Hall.
    destruct (resolve_plugins_total str_of_error reg plugin_list)
      as [fuel0 Htotal].
    exists fuel0.
    destruct (Htotal fuel0) as [(found & dists & _ & Hres & _)
                               |(e & Hloop & _)]; [done| |].
    + by exists dists.
    + apply (resolve_loop_raised_reached _ _ _ _ _ _ _
               (reach_sound_start _ _)) in Hloop
        as (missing & Hreach & Hnone & _).
      destruct (Hall missing Hreach) as [d Hd]. congruence.
Qed.

(* ===================================================================== *)
(** * Resolver: the statements of the design document                     *)
(* ===================================================================== *)

Lemma mapM_get_distro_inv reg found dists :
  mapM (get_distro reg) found = Return dists →
  Forall2 (λ name dist, reg !! name = Some dist) found dists.
Proof.
  revert dists. induction found as [|name found IH]; intros dists; simpl.
  - intros [= <-]. constructor.
  - destruct (get_distro reg name) as [dist|e] eqn:Hget; [|done].
    unfold get_distro, distribution in Hget.
    destruct (reg !! name) as [dist'|] eqn:Hname;
      [|by destruct (nonempty name)].
    injection Hget as ->. simpl.
    destruct (mapM (get_distro reg) found) as [rest|e]; [|done].
    simpl. intros [= <-]. constructor; [done|by apply IH].
Qed.

Section ResolverGate.

Variable str_of_error : string → string.
Variable reg : gmap string Distribution.
Variable plugin : string.
Variable dist : Distribution.

Hypothesis Hreg : reg !! plugin = Some dist.
Hypothesis Hversion : truthy (metadata_version dist) = false.

Lemma manifest_entries_gate o : manifest_entries (with_manifest dist o) = [].
Proof. unfold manifest_entries. simpl. by rewrite Hversion. Qed.

(** The loop does not see the manifest of a distribution without
    [Metadata-Version]. *)
Lemma resolve_loop_with_manifest fuel o plugin_list found :
  resolve_loop str_of_error fuel
    (<[plugin := with_manifest dist o]> reg) plugin_list found
  = resolve_loop str_of_error fuel reg plugin_list found.
Proof.
  revert plugin_list found. induction fuel as [|fuel IH]; [done|].
  intros plugin_list found.
  destruct plugin_list as [|name plugin_list _] using rev_ind; [done|].
  destruct (decide (name = plugin)) as [->|Hne].
  - rewrite (resolve_loop_step _ _ _ _ _ _ (with_manifest dist o))
      by apply lookup_insert_eq.
    rewrite (resolve_loop_step _ _ _ _ _ _ dist) by done.
    rewrite manifest_entries_gate, IH. unfold manifest_entries.
    by rewrite Hversion.
  - destruct (reg !! name) as [dist'|] eqn:Hname.
    + rewrite (resolve_loop_step _ _ _ _ _ _ dist')
        by by rewrite lookup_insert_ne.
      by rewrite (resolve_loop_step _ _ _ _ _ _ dist'), IH.
    + rewrite !resolve_loop_raise; [done..|]. by rewrite lookup_insert_ne.
Qed.

Lemma mapM_with_manifest o found :
  match mapM (get_distro reg) found,
        mapM (get_distro (<[plugin := with_manifest dist o]> reg)) found with
  | Return dists, Return dists' =>
      Forall2 (λ d d', d' = d ∨ (d = dist ∧ d' = with_manifest dist o))
        dists dists'
  | Raise e, Raise e' => e = e'
  | _, _ => False
  end.
Proof.
  induction found as [|name found IH]; simpl; [constructor|].
  destruct (decide (name = plugin)) as [->|Hne].
  - assert (get_distro reg plugin = Return dist) as ->
      by (unfold get_distro, distribution; by rewrite Hreg).
    assert (get_distro (<[plugin := with_manifest dist o]> reg) plugin
            = Return (with_manifest dist o)) as ->
      by (unfold get_distro, distribution; by rewrite lookup_insert_eq).
    simpl.
    destruct (mapM (get_distro reg) found) as [rest|e],
      (mapM (get_distro _) found) as [rest'|e']; simpl; try done.
    constructor; [by right|done].
  - assert (get_distro (<[plugin := with_manifest dist o]> reg) name
            = get_distro reg name) as ->
      by (unfold get_distro, distribution; by rewrite lookup_insert_ne).
    destruct (get_distro reg name) as [d|e0]; simpl; [|done].
    destruct (mapM (get_distro reg) found) as [rest|e],
      (mapM (get_distro _) found) as [rest'|e']; simpl; try done.
    constructor; [by left|done].
Qed.

End ResolverGate.

(** C1.  The result of [resolve_plugins] can hold a name, and its
    distribution, twice.  The loop tests [found] when it pushes a
    manifest entry, but it appends every name it pops and never looks at
    the queue: a name listed by two manifests comes out twice, and so
    does a name listed twice by one manifest and a name given twice. *)
Lemma resolve_plugins_duplicates :
  resolve_loop importlib_str 5 diamond_reg ["A"] []
  = Done ["A"; "B"; "D"; "D"]
  ∧ resolve_plugins importlib_str 5 diamond_reg ["A"]
    = Done [plugin_dist "A" (write_lines ["D"; "B"]);
            plugin_dist "B" (write_lines ["D"]);
            plugin_dist "D" ""; plugin_dist "D" ""]
  ∧ resolve_loop importlib_str 4 twice_reg ["A"] [] = Done ["A"; "B"; "B"]
  ∧ resolve_loop importlib_str 4 cycle_reg ["A"; "A"] []
    = Done ["A"; "B"; "A"]
  ∧ resolve_plugins importlib_str 4 cycle_reg ["A"; "A"]
    = Done [dist_A; dist_B; dist_A]
  ∧ ¬ NoDup ["A"; "B"; "D"; "D"] ∧ ¬ NoDup ["A"; "B"; "B"]
  ∧ ¬ NoDup ["A"; "B"; "A"].
Proof. repeat split; compute_done. Qed.

(** C2 (as amended).  Let A and B be two different registered names;
    let the distribution of A have a non-empty [Metadata-Version] and a
    manifest that holds the name B and no other, and let the manifest of
    B hold the name A, as it is given to [resolve_plugins], and no
    other.  Then [resolve_plugins([A])] ends after three tests of the
    queue and returns the distribution of A, then that of B, which
    differ. *)
Theorem resolve_plugins_two_cycle
    (str_of_error : string → string) (reg : gmap string Distribution)
    (a b : string) (dist_a dist_b : Distribution) (data_a data_b : string)
    (fuel : nat) :
  a ≠ b →
  reg !! a = Some dist_a →
  reg !! b = Some dist_b →
  truthy (metadata_version dist_a) = true →
  read_text_plugins dist_a = ReadText data_a →
  read_text_plugins dist_b = ReadText data_b →
  parse_lines data_a = [b] →
  parse_lines data_b = [a] →
  3 ≤ fuel →
  resolve_loop str_of_error fuel reg [a] [] = Done [a; b]
  ∧ resolve_plugins str_of_error fuel reg [a] = Done [dist_a; dist_b]
  ∧ NoDup [dist_a; dist_b].
Proof.
  intros Hab Ha Hb Hva Hra Hrb Hla Hlb Hfuel.
  assert (manifest_entries dist_a = [b]) as Hma.
  { unfold manifest_entries. rewrite Hva, Hra.
    destruct data_a; [done|]. done. }
  assert (filter (.∉ [a] ++ [b]) (manifest_entries dist_b) = []) as Hmb.
  { unfold manifest_entries. rewrite Hrb.
    destruct (truthy (metadata_version dist_b)); [|done].
    destruct (nonempty data_b); [|done].
    rewrite Hlb, filter_cons_False, filter_nil; [done|].
    intros Hn. apply Hn. by left. }
  assert (resolve_loop str_of_error fuel reg [a] [] = Done [a; b]) as Hloop.
  { destruct fuel as [|[|[|fuel]]]; [lia..|].
    rewrite (resolve_loop_step _ (S (S fuel)) reg [] a [] dist_a Ha).
    rewrite Hma, !app_nil_l, filter_cons_True, filter_nil
      by (apply not_elem_of_cons; split; [done|apply not_elem_of_nil]).
    rewrite (resolve_loop_step _ (S fuel) reg [] b [a] dist_b Hb).
    by rewrite Hmb. }
  split; [done|]. split.
  - unfold resolve_plugins. rewrite Hloop. simpl.
    unfold get_distro, distribution. by rewrite Ha, Hb.
  - apply NoDup_cons. split; [|apply NoDup_singleton].
    intros ->%list_elem_of_singleton.
    rewrite Hra in Hrb. injection Hrb as ->. congruence.
Qed.

Lemma resolve_plugins_two_cycle_witness :
  resolve_loop importlib_str 3 cycle_reg ["A"] [] = Done ["A"; "B"]
  ∧ resolve_plugins importlib_str 3 cycle_reg ["A"] = Done [dist_A; dist_B]
  ∧ NoDup [dist_A; dist_B].
Proof.
  apply (resolve_plugins_two_cycle importlib_str cycle_reg "A" "B"
           dist_A dist_B (write_lines ["B"]) (write_lines ["A"]));
    first [lia | compute_done].
Defined.

(** C2 fails as stated: when A has no [Metadata-Version] its manifest
    is not read, and [resolve_plugins([A])] returns A alone; and when B
    lists A in another spelling that the registry answers to, the
    distribution of A comes out twice. *)
Lemma resolve_plugins_two_cycle_bare :
  manifest_entries dist_B = ["A"]
  ∧ read_text_plugins bare_A = ReadText (write_lines ["B"])
  ∧ resolve_plugins importlib_str 2 bare_cycle_reg ["A"] = Done [bare_A]
  ∧ [bare_A] ≠ [bare_A; dist_B]
  ∧ resolve_plugins importlib_str 4 alias_cycle_reg ["A"]
    = Done [dist_A; plugin_dist "B" (write_lines ["a"]); dist_A]
  ∧ ¬ NoDup [dist_A; plugin_dist "B" (write_lines ["a"]); dist_A].
Proof.
  do 3 (split; [by vm_compute|]). split; [discriminate|].
  split; [by vm_compute|].
  intros [Hnotin _]%NoDup_cons. apply Hnotin.
  apply elem_of_cons. right. apply elem_of_cons. by left.
Qed.

(** C3 (as amended).  When the name on top of the queue is not empty
    and not registered, the loop raises [PackageNotFoundError] at once:
    its message holds the name and the hint.  So does [resolve_plugins]
    on that name alone; and when a list without the empty name holds a
    name that is not registered, [resolve_plugins] ends with this error
    for a non-empty name that is not registered. *)
Theorem resolve_plugins_not_found
    (str_of_error : string → string) (reg : gmap string Distribution)
    (plugin : string) :
  nonempty plugin = true →
  reg !! plugin = None →
  (∀ fuel plugin_list found,
      ∃ message,
        resolve_loop str_of_error (S fuel) reg (plugin_list ++ [plugin]) found
        = Raised (PackageNotFoundError message)
        ∧ contains plugin message
        ∧ contains "did you run python setup.py develop?" message)
  ∧ (∀ fuel,
      ∃ message,
        resolve_plugins str_of_error (S fuel) reg [plugin]
        = Raised (PackageNotFoundError message)
        ∧ contains plugin message
        ∧ contains "did you run python setup.py develop?" message)
  ∧ (∀ plugin_list,
      plugin ∈ plugin_list →
      "" ∉ plugin_list →
      ∃ fuel0, ∀ fuel, fuel0 ≤ fuel →
        ∃ missing message,
          nonempty missing = true
          ∧ reg !! missing = None
          ∧ resolve_plugins str_of_error fuel reg plugin_list
            = Raised (PackageNotFoundError message)
          ∧ contains missing message
          ∧ contains "did you run python setup.py develop?" message).
Proof.
  intros Hne Hnone. split; [|split].
  - intros fuel plugin_list found. eexists. split.
    + rewrite resolve_loop_raise by done. by rewrite Hne.
    + apply not_found_message_contains.
  - intros fuel. eexists. split.
    + apply resolve_plugins_raised.
      rewrite (resolve_loop_raise _ _ _ [] plugin) by done. by rewrite Hne.
    + apply not_found_message_contains.
  - intros plugin_list Hin Hempty.
    destruct (resolve_plugins_total str_of_error reg plugin_list)
      as [fuel0 Htotal].
    exists fuel0. intros fuel Hle.
    destruct (Htotal fuel Hle) as [(found & dists & Hloop & _)
                                  |(e & Hloop & Hres)].
    + by destruct (resolve_loop_missing str_of_error reg fuel plugin_list []
                     plugin found Hin Hnone).
    + apply (resolve_loop_raised_reached _ _ _ _ _ _ _
               (reach_sound_start _ _)) in Hloop
        as (missing & Hreach & Hmissing & ->).
      destruct (nonempty missing) eqn:Hm.
      * exists missing. eexists. split_and!; try done.
        all: apply not_found_message_contains.
      * pose proof (reachable_empty_name _ _ _ Hreach Hm) as Hin'.
        destruct missing; [done|discriminate].
Qed.

Lemma resolve_plugins_not_found_witness :
  resolve_plugins importlib_str 1 cycle_reg ["missing"]
  = Raised (PackageNotFoundError
      "No package metadata was found for missing: Not Found for: missing (did you run python setup.py develop?)")
  ∧ contains "missing"
      "No package metadata was found for missing: Not Found for: missing (did you run python setup.py develop?)".
Proof.
  destruct (proj1 (proj2 (resolve_plugins_not_found importlib_str cycle_reg
                            "missing" eq_refl eq_refl)) 0)
    as (message & Hraise & Hname & _).
  assert (message = "No package metadata was found for missing: Not Found for: missing (did you run python setup.py develop?)")
    as -> by (vm_compute in Hraise; congruence).
  by split.
Defined.

(** C3 fails as stated: the empty name is absent from every registry,
    and for it [resolve_plugins] fails with the [ValueError] of
    [importlib.metadata], which the handler does not catch: the message
    has no hint. *)
Lemma resolve_plugins_empty_name :
  cycle_reg !! "" = None
  ∧ resolve_plugins importlib_str 1 cycle_reg [""]
    = Raised (ValueError "A distribution name is required.")
  ∧ cycle_reg !! "missing" = None
  ∧ resolve_plugins importlib_str 1 cycle_reg ["missing"; ""]
    = Raised (ValueError "A distribution name is required.").
Proof. repeat split; compute_done. Qed.

(** C10.  Let a name be registered with a distribution that has no (or
    an empty) [Metadata-Version].  Then [resolve_plugins] on that name
    alone returns that distribution and nothing else, whatever its
    manifest lists; whenever [resolve_plugins] returns for a list that
    holds the name, the distribution is in the result; and the run is the
    same whatever [read_text] would give for that distribution: the
    loop finds the same names, and [resolve_plugins] raises the same
    error or returns the same distributions, that one with its other
    manifest. *)
Theorem resolve_plugins_metadata_version_gate
    (str_of_error : string → string) (reg : gmap string Distribution)
    (plugin : string) (dist : Distribution) :
  reg !! plugin = Some dist →
  truthy (metadata_version dist) = false →
  (∀ fuel, 2 ≤ fuel →
      resolve_plugins str_of_error fuel reg [plugin] = Done [dist])
  ∧ (∀ fuel plugin_list dists,
      plugin ∈ plugin_list →
      resolve_plugins str_of_error fuel reg plugin_list = Done dists →
      dist ∈ dists)
  ∧ (∀ fuel outcome plugin_list,
      resolve_loop str_of_error fuel
        (<[plugin := with_manifest dist outcome]> reg) plugin_list []
      = resolve_loop str_of_error fuel reg plugin_list []
      ∧ same_outcome
          (λ d d', d' = d ∨ (d = dist ∧ d' = with_manifest dist outcome))
          (resolve_plugins str_of_error fuel reg plugin_list)
          (resolve_plugins str_of_error fuel
             (<[plugin := with_manifest dist outcome]> reg) plugin_list)).
Proof.
  intros Hreg Hversion. split; [|split].
  - intros [|[|fuel]] Hfuel; [lia..|]. unfold resolve_plugins.
    rewrite (resolve_loop_step _ (S fuel) reg [] plugin [] dist Hreg).
    unfold manifest_entries. rewrite Hversion. simpl.
    unfold get_distro, distribution. by rewrite Hreg.
  - intros fuel plugin_list dists Hin. unfold resolve_plugins.
    destruct (resolve_loop str_of_error fuel reg plugin_list [])
      as [found| |] eqn:Hloop; [|done..].
    destruct (mapM (get_distro reg) found) as [dists'|] eqn:Hmap; [|done].
    intros [= <-]. apply mapM_get_distro_inv in Hmap.
    assert (plugin ∈ found) as Hfound.
    { apply (resolve_loop_closed _ _ _ _ _ _ _
               (reach_closed_start _ _) Hloop).
      by apply reachable_start. }
    apply list_elem_of_lookup in Hfound as [i Hi].
    destruct (Forall2_lookup_l _ _ _ _ _ Hmap Hi) as (d & Hd & Hlook).
    assert (d = dist) as -> by congruence.
    by apply list_elem_of_lookup_2 in Hd.
  - intros fuel outcome plugin_list.
    pose proof (resolve_loop_with_manifest str_of_error reg plugin dist
                  Hreg Hversion fuel outcome plugin_list []) as Hsame.
    split; [done|]. unfold resolve_plugins. rewrite Hsame.
    destruct (resolve_loop str_of_error fuel reg plugin_list [])
      as [found| |]; [|done..].
    pose proof (mapM_with_manifest reg plugin dist Hreg outcome found)
      as Hmap.
    destruct (mapM (get_distro reg) found),
      (mapM (get_distro _) found); done.
Qed.

Lemma resolve_plugins_metadata_version_gate_witness :
  resolve_plugins importlib_str 2 old_reg ["Old"] = Done [old_dist]
  ∧ old_reg !! "Ghost" = None
  ∧ read_text_plugins old_dist = ReadText (write_lines ["Ghost"]).
Proof.
  split; [|by split].
  apply (proj1 (resolve_plugins_metadata_version_gate importlib_str old_reg
                  "Old" old_dist eq_refl eq_refl)). lia.
Defined.

(* ===================================================================== *)
(** * Manifest store: round trips                                         *)
(* ===================================================================== *)

Lemma parse_lines_read_back lines :
  Forall (λ l, clean_line l = true ∧ plain_line l = true
               ∧ is_comment l = false) lines →
  parse_lines (write_lines lines) = lines.
Proof.
  intros Hall. rewrite parse_lines_write_lines, bind_parse_plain.
  - induction Hall as [|l lines (_ & _ & Hc) _ IH]; [done|].
    rewrite filter_cons_True by by_bool. by rewrite IH.
  - eapply Forall_impl; [exact Hall|]. by intros l (? & _).
  - eapply Forall_impl; [exact Hall|]. by intros l (_ & ? & _).
Qed.

(** X15.  Every name [parse_lines] returns is non-empty, has no
    whitespace around it and no line boundary in it, and does not start
    with [#].  A list of such names written one per line is read back
    unchanged; so what [parse_lines] reads from a text it reads again
    from its own result written back. *)
Theorem parse_lines_normal_form (data : string) :
  Forall (λ l, clean_line l = true ∧ plain_line l = true
               ∧ is_comment l = false) (parse_lines data)
  ∧ (∀ lines,
       Forall (λ l, clean_line l = true ∧ plain_line l = true
                    ∧ is_comment l = false) lines →
       parse_lines (write_lines lines) = lines)
  ∧ parse_lines (write_lines (parse_lines data)) = parse_lines data.
Proof.
  assert (Forall (λ l, clean_line l = true ∧ plain_line l = true
                       ∧ is_comment l = false) (parse_lines data)) as Hall.
  { apply Forall_forall. intros l. apply parse_lines_elem. }
  split; [done|]. split; [apply parse_lines_read_back|].
  by apply parse_lines_read_back.
Qed.




Lemma path_exists_false_file fs egg_info_dir :
  path_exists fs (join egg_info_dir manifest_name) = false →
  files fs !! join egg_info_dir manifest_name = None.
Proof.
  unfold path_exists. rewrite join_manifest_nonempty. simpl.
  intros [Hf _]%orb_false_iff. apply bool_decide_eq_false in Hf.
  destruct (files fs !! _); [|done]. exfalso. apply Hf. by eexists.
Qed.

Lemma add_plugin_written fs fs' egg_info_dir plugin_name lines :
  (fs0 ← (if path_exists fs (dirname (join egg_info_dir manifest_name))
          then mret fs
          else makedirs fs (dirname (join egg_info_dir manifest_name)));
   mret (open_write fs0 (join egg_info_dir manifest_name)
           (write_lines (lines ++ [plugin_name])))) = Return fs' →
  files fs' !! join egg_info_dir manifest_name
  = Some (write_lines (lines ++ [plugin_name])).
Proof.
  destruct (if path_exists fs _ then _ else _) as [fs0|e]; [|done].
  simpl. intros [= <-]. simpl. apply lookup_insert_eq.
Qed.

(** X18.  Take a name that is a non-empty line without surrounding
    whitespace, line feed or carriage return, and a manifest whose
    directory does not lie at or under a regular file.  Whenever
    [add_plugin] returns, the manifest holds the lines it had, in their
    order, with the name at the end if it was not among them: so the
    name is in the manifest. *)
Theorem add_plugin_postcondition
    (fs fs' : filesystem) (egg_info_dir plugin_name : string) :
  add_plugin fs egg_info_dir plugin_name = Return fs' →
  dir_free fs (dirname (join egg_info_dir manifest_name)) →
  clean_line plugin_name = true →
  no_CR plugin_name = true →
  stored_lines fs' (join egg_info_dir manifest_name)
  = (if bool_decide
          (plugin_name ∈ stored_lines fs (join egg_info_dir manifest_name))
     then stored_lines fs (join egg_info_dir manifest_name)
     else stored_lines fs (join egg_info_dir manifest_name) ++ [plugin_name])
  ∧ plugin_name ∈ stored_lines fs' (join egg_info_dir manifest_name).
Proof.
  intros Hadd _ Hclean Hcr.
  set (fn := join egg_info_dir manifest_name) in *.
  assert (∀ lines,
            Forall (λ l, clean_line l = true) lines →
            Forall (λ l, no_CR l = true) lines →
            manifest_lines (write_lines (lines ++ [plugin_name]))
            = lines ++ [plugin_name]) as Hread.
  { intros lines Hlines Hcrs.
    apply manifest_lines_write_lines; apply Forall_app;
      (split; [done|by repeat constructor]). }
  assert (stored_lines fs' fn
          = (if bool_decide (plugin_name ∈ stored_lines fs fn)
             then stored_lines fs fn
             else stored_lines fs fn ++ [plugin_name])) as Hlines.
  { unfold add_plugin in Hadd. fold fn in Hadd.
    destruct (path_exists fs fn) eqn:Hex.
    - unfold open_read in Hadd.
      destruct (files fs !! fn) as [text|] eqn:Hf; [|done].
      assert (stored_lines fs fn = manifest_lines text) as ->
        by (unfold stored_lines; by rewrite Hf).
      simpl in Hadd. case_bool_decide as Hin.
      + injection Hadd as <-. unfold stored_lines. by rewrite Hf.
      + apply add_plugin_written in Hadd. unfold stored_lines. fold fn in Hadd.
        rewrite Hadd.
        apply Hread; [apply manifest_lines_clean|apply manifest_lines_no_CR].
    - apply path_exists_false_file in Hex as Hf. fold fn in Hf.
      assert (stored_lines fs fn = []) as ->
        by (unfold stored_lines; by rewrite Hf).
      simpl in Hadd. rewrite bool_decide_eq_false_2 by apply not_elem_of_nil.
      apply (add_plugin_written fs fs' egg_info_dir plugin_name []) in Hadd.
      unfold stored_lines. fold fn in Hadd.
      rewrite Hadd. by apply (Hread []). }
  split; [done|]. rewrite Hlines. case_bool_decide as Hin; [done|].
  apply elem_of_app. right. by left.
Qed.

Lemma add_plugin_postcondition_witness :
  stored_lines
    (open_write commented_fs demo_manifest
       (write_lines ["# my plugins"; "Foo"; "Bar"])) demo_manifest
  = ["# my plugins"; "Foo"; "Bar"].
Proof.
  refine (proj1 (add_plugin_postcondition commented_fs
                   (open_write commented_fs demo_manifest
                      (write_lines ["# my plugins"; "Foo"; "Bar"]))
                   demo_dir "Bar" _ _ _ _)).
  - reflexivity.
  - compute_done.
  - reflexivity.
  - reflexivity.
Defined.

(* ===================================================================== *)
(** * Entry point listing                                                 *)
(* ===================================================================== *)

Lemma spaces_length k : String.length (spaces k) = Z.to_nat k.
Proof.
  unfold spaces. induction (Z.to_nat k) as [|n IH]; [done|].
  simpl. by rewrite IH.
Qed.

Lemma spaces_blank k : str_forall (λ c, bool_decide (c = " "%char)) (spaces k) = true.
Proof.
  unfold spaces. induction (Z.to_nat k) as [|n IH]; [done|].
  simpl. by rewrite IH.
Qed.

Lemma sapp_length s t :
  String.length (s +:+ t) = String.length s + String.length t.
Proof.
  induction s as [|c s IH]; [done|]. rewrite sapp_cons. simpl. by rewrite IH.
Qed.

(** X19.  [_ep_description] gives the name, blanks, [ = ] and the
    value.  Without [pad_name] there are no blanks; with it, the name
    and the blanks are [pad_name] characters long, or as long as the name
    when that is longer: a long name is never cut. *)
Theorem ep_description_columns (ep : EntryPoint) (pad_name : option Z) :
  ∃ blanks,
    _ep_description ep pad_name
    = ep_name ep +:+ blanks +:+ " = " +:+ ep_value ep
    ∧ str_forall (λ c, bool_decide (c = " "%char)) blanks = true
    ∧ match pad_name with
      | Some n =>
          Z.of_nat (String.length (ep_name ep +:+ blanks))
          = Z.max n (Z.of_nat (String.length (ep_name ep)))
      | None => blanks = ""
      end.
Proof.
  unfold _ep_description. destruct pad_name as [n|].
  - exists (spaces (n - Z.of_nat (String.length (ep_name ep)))).
    split; [by rewrite sapp_assoc|]. split; [apply spaces_blank|].
    rewrite sapp_length, spaces_length. lia.
  - exists "". by rewrite sapp_nil_l.
Qed.
